(** * The hyper-sensitive optimal-control example of dymos

    A shallow embedding of the code cells of the hyper-sensitive example
    notebook (the [HyperSensitiveODE] component, the analytic reference
    [solution] and the closing assertions) and of the documentation
    table of contents [docs/_toc.yml].

    numpy arrays of rank one are lists of scalars, the dictionary-like
    [inputs], [outputs] and [jacobian] vectors are finite maps, and a raised
    Python exception is the [Raise] case of a small error monad.  The
    component is written once over an abstract scalar, so that the same text
    runs on binary64 floats (what numpy computes with) and on the reals
    (where its calculus is stated). *)

From Stdlib Require Import Floats.
From Stdlib Require Import Reals Lra.
From stdpp Require Import gmap strings list fin_maps.

(** ** Exceptions *)

Inductive exn : Type :=
| KeyError (key : string)
| IndexError
| ValueError
| AssertionFailure.

Inductive result (A : Type) : Type :=
| Ok (a : A)
| Raise (e : exn).

Arguments Ok {A} a.
Arguments Raise {A} e.

#[export] Instance result_ret : MRet result := @Ok.
#[export] Instance result_bind : MBind result := fun A B k m =>
  match m with
  | Ok a => k a
  | Raise e => Raise e
  end.

(** ** Scalars *)

(** The arithmetic the component uses on array elements.  [sint] is the
    conversion numpy applies to a Python integer literal. *)
Class Scalar (F : Type) : Type := {
  sneg : F -> F;
  sadd : F -> F -> F;
  smul : F -> F -> F;
  sdiv : F -> F -> F;
  sint : Z -> F
}.

#[export] Instance R_Scalar : Scalar R := {|
  sneg := Ropp;
  sadd := Rplus;
  smul := Rmult;
  sdiv := Rdiv;
  sint := IZR
|}.

#[export] Instance float_Scalar : Scalar float := {|
  sneg := PrimFloat.opp;
  sadd := PrimFloat.add;
  smul := PrimFloat.mul;
  sdiv := PrimFloat.div;
  sint := fun z =>
    match z with
    | Z0 => PrimFloat.zero
    | Zpos p => PrimFloat.of_uint63 (Uint63.of_pos p)
    | Zneg p => PrimFloat.opp (PrimFloat.of_uint63 (Uint63.of_pos p))
    end
|}.

(** [x ** n] for a literal exponent [n >= 0]. *)
Fixpoint spow {F : Type} `{Scalar F} (x : F) (n : nat) : F :=
  match n with
  | O => sint 1
  | S n' => smul x (spow x n')
  end.

(** ** numpy arrays of rank one *)

Module np.
Section Arrays.
Context {F : Type} `{Scalar F}.

(** [np.zeros(n)] and [np.arange(n)]; a negative length is refused. *)
Definition zeros (n : Z) : result (list F) :=
  if decide (n < 0)%Z then Raise ValueError
  else Ok (replicate (Z.to_nat n) (sint 0)).

Definition arange (n : Z) : list nat := seq 0 (Z.to_nat n).

(** Elementwise binary operation with numpy's broadcasting rule for rank
    one: equal lengths pair up, a length-one operand is stretched, any
    other pair of lengths is an error. *)
Definition broadcast2 (f : F -> F -> F) (a b : list F) : result (list F) :=
  if decide (length a = length b) then Ok (zip_with f a b)
  else match a, b with
       | [a0], _ => Ok (map (f a0) b)
       | _, [b0] => Ok (map (fun ai => f ai b0) a)
       | _, _ => Raise ValueError
       end.

Definition neg (a : list F) : list F := map sneg a.
Definition add (a b : list F) : result (list F) := broadcast2 sadd a b.
Definition pow (a : list F) (n : nat) : list F := map (fun ai => spow ai n) a.
Definition div_int (a : list F) (k : Z) : list F :=
  map (fun ai => sdiv ai (sint k)) a.

(** Integer-array indexing [a[idx]]; an index out of range is an error. *)
Fixpoint take (a : list F) (idx : list nat) : result (list F) :=
  match idx with
  | [] => Ok []
  | i :: idx' =>
      match a !! i with
      | Some ai => r ← take a idx'; Ok (ai :: r)
      | None => Raise ValueError
      end
  end.
End Arrays.
End np.

(** [d[key]] on a dictionary-like vector. *)
Definition getitem {V : Type} (d : gmap string V) (key : string) : result V :=
  match d !! key with
  | Some v => Ok v
  | None => Raise (KeyError key)
  end.

(** ** The ODE component *)

(** What [add_input] and [add_output] record for a variable. *)
Record var_meta (F : Type) : Type := VarMeta {
  var_val : list F;
  var_desc : string;
  var_units : option string
}.
Arguments VarMeta {F} _ _ _.
Arguments var_val {F} _.
Arguments var_desc {F} _.
Arguments var_units {F} _.

(** What [declare_partials] records for a sub-Jacobian: its sparsity
    pattern and, when [val] was given, its constant value. *)
Record partials_decl (F : Type) : Type := PartialsDecl {
  rows : list nat;
  cols : list nat;
  val : option F
}.
Arguments PartialsDecl {F} _ _ _.
Arguments rows {F} _.
Arguments cols {F} _.
Arguments val {F} _.

Record component (F : Type) : Type := Component {
  comp_inputs : gmap string (var_meta F);
  comp_outputs : gmap string (var_meta F);
  comp_partials : gmap (string * string) (partials_decl F)
}.
Arguments Component {F} _ _ _.
Arguments comp_inputs {F} _.
Arguments comp_outputs {F} _.
Arguments comp_partials {F} _.

Module HyperSensitiveODE.
Section ODE.
Context {F : Type} `{Scalar F}.

(** The class attributes [states] and [parameters]: for each state the
    output that is its rate, for each parameter its target. *)
Definition states : list (string * string) := [("x", "x_dot"); ("xL", "L")].
Definition parameters : list (string * string) := [("u", "u")].

Definition setup (nn : Z) : result (component F) :=
  z ← np.zeros nn;
  let ins : gmap string (var_meta F) :=
    <["u" := VarMeta z "control" None]>
    (<["xL" := VarMeta z "cost_state" None]>
    (<["x" := VarMeta z "state" None]> ∅)) in
  let outs : gmap string (var_meta F) :=
    <["L" := VarMeta z "Lagrangian" (Some "1/s")]>
    (<["x_dot" := VarMeta z "state rate" (Some "1/s")]> ∅) in
  let diag := np.arange nn in
  let parts : gmap (string * string) (partials_decl F) :=
    <[("L", "u") := PartialsDecl diag diag None]>
    (<[("L", "x") := PartialsDecl diag diag None]>
    (<[("x_dot", "u") := PartialsDecl diag diag (Some (sint 1))]>
    (<[("x_dot", "x") := PartialsDecl diag diag (Some (sint (-1)))]> ∅))) in
  Ok (Component ins outs parts).

Definition compute (inputs outputs : gmap string (list F))
    : result (gmap string (list F)) :=
  x ← getitem inputs "x";
  u ← getitem inputs "u";
  x_dot ← np.add (np.neg x) u;
  let outputs := <["x_dot" := x_dot]> outputs in
  s ← np.add (np.pow x 2) (np.pow u 2);
  let outputs := <["L" := np.div_int s 2]> outputs in
  Ok outputs.

Definition compute_partials (inputs : gmap string (list F))
    (jacobian : gmap (string * string) (list F))
    : result (gmap (string * string) (list F)) :=
  x ← getitem inputs "x";
  u ← getitem inputs "u";
  let jacobian := <[("L", "x") := x]> jacobian in
  let jacobian := <[("L", "u") := u]> jacobian in
  Ok jacobian.
End ODE.
End HyperSensitiveODE.

(** The value arrays the framework allocates for the declared
    sub-Jacobians before [compute_partials] runs: one entry per declared
    row, holding the declared constant, or zero when none was given. *)
Definition initial_jacobian {F : Type} `{Scalar F} (c : component F)
    : gmap (string * string) (list F) :=
  (fun d => replicate (length (rows d)) (default (sint 0) (val d)))
    <$> comp_partials c.

(** Entry [(i, j)] of the matrix that a sub-Jacobian in coordinate form
    stands for: the sum of the values stored at that position. *)
Fixpoint coo_entry (rs cs : list nat) (vs : list R) (i j : nat) : R :=
  match rs, cs, vs with
  | r :: rs', c :: cs', v :: vs' =>
      ((if decide (r = i /\ c = j) then v else 0) + coo_entry rs' cs' vs' i j)%R
  | _, _, _ => 0%R
  end.

(** ** Running the component on binary64 arrays *)

Definition float_example_inputs : gmap string (list float) :=
  <["x" := [1.5%float; 1%float]]>
  (<["xL" := [0%float; 0%float]]>
  (<["u" := [0.5%float; 3%float]]> ∅)).

Example compute_float_x_dot :
  (out ← HyperSensitiveODE.compute float_example_inputs ∅;
   getitem out "x_dot") = Ok [(-1)%float; 2%float].
Proof. vm_compute. reflexivity. Qed.

Example compute_float_L :
  (out ← HyperSensitiveODE.compute float_example_inputs ∅;
   getitem out "L") = Ok [1.25%float; 5%float].
Proof. vm_compute. reflexivity. Qed.

(** ** The analytic reference solution *)

(** The module-level [tf = np.float128(10)] and [solution()], read over the
    reals. *)
Definition tf : R := 10.

Definition solution : R * R * R :=
  let sqrt_two := sqrt 2 in
  let val := (sqrt_two * tf)%R in
  let c1 := ((1.5 * exp (- val) - 1) / (exp (- val) - exp val))%R in
  let c2 := ((1 - 1.5 * exp val) / (exp (- val) - exp val))%R in
  let ui := (c1 * (1 + sqrt_two) + c2 * (1 - sqrt_two))%R in
  let uf := (c1 * (1 + sqrt_two) * exp val
             + c2 * (1 - sqrt_two) * exp (- val))%R in
  let J := (0.5 * (c1 ^ 2 * (1 + sqrt_two) * exp (2 * val)
                   + c2 ^ 2 * (1 - sqrt_two) * exp (-2 * val)
                   - (1 + sqrt_two) * c1 ^ 2 - (1 - sqrt_two) * c2 ^ 2))%R in
  (ui, uf, J).

(** The optimal trajectory as the notebook states it: the constants [c1]
    and [c2] for a final time [T], and the state [x_star]. *)
Module Analytic.
Definition c1 (T : R) : R :=
  ((1.5 * exp (- sqrt 2 * T) - 1)
   / (exp (- sqrt 2 * T) - exp (sqrt 2 * T)))%R.

Definition c2 (T : R) : R :=
  ((1 - 1.5 * exp (sqrt 2 * T))
   / (exp (- sqrt 2 * T) - exp (sqrt 2 * T)))%R.

Definition x_star (T t : R) : R :=
  (c1 T * exp (sqrt 2 * t) + c2 T * exp (- sqrt 2 * t))%R.
End Analytic.

(** ** The closing assertions *)

(** [a[i]] for a Python integer [i]: a negative index counts from the end. *)
Definition py_index {A : Type} (a : list A) (i : Z) : result A :=
  let n := Z.of_nat (length a) in
  let j := if decide (i < 0)%Z then (i + n)%Z else i in
  if decide (0 <= j < n)%Z then
    match a !! Z.to_nat j with
    | Some v => Ok v
    | None => Raise IndexError
    end
  else Raise IndexError.

Definition relative_difference (actual desired : R) : R :=
  (Rabs (actual - desired) / Rabs desired)%R.

(** Modelled from the spec: [assert_near_equal] is the numeric assertion
    helper of the external framework and is not among the sources.  The
    spec has the compared value "match" the reference "within relative
    tolerance" and the assertion "either pass or raise a framework-level
    assertion failure". *)
Definition assert_near_equal (actual desired tolerance : R) : result unit :=
  if Rlt_dec tolerance (relative_difference actual desired)
  then Raise AssertionFailure
  else Ok tt.

(** The last code cell, run on the solved problem [p], whose [get_val]
    gives the timeseries by name (one value per node). *)
Definition assertions_cell (p : gmap string (list R)) : result unit :=
  let '(ui, uf, J) := solution in
  u ← getitem p "traj.phase0.timeseries.controls:u";
  u_first ← py_index u 0;
  assert_near_equal u_first ui 1.5e-2;;
  u ← getitem p "traj.phase0.timeseries.controls:u";
  u_last ← py_index u (-1);
  assert_near_equal u_last uf 1.5e-2;;
  xL ← getitem p "traj.phase0.timeseries.states:xL";
  xL_last ← py_index xL (-1);
  assert_near_equal xL_last J 1e-2.

(** ** The table of contents *)

(** The fragment of YAML that [docs/_toc.yml] is written in. *)
#[local] Unset Elimination Schemes.
Inductive yaml : Type :=
| YStr (s : string)
| YSeq (items : list yaml)
| YMap (fields : list (string * yaml)).
#[local] Set Elimination Schemes.

Definition page (name : string) : yaml := YMap [("file", YStr name)].

Definition page_with_sections (name : string) (sections : list yaml) : yaml :=
  YMap [("file", YStr name); ("sections", YSeq sections)].

Definition part (caption : string) (chapters : list yaml) : yaml :=
  YMap [("caption", YStr caption); ("chapters", YSeq chapters)].

Definition toc : yaml :=
  YMap [
    ("format", YStr "jb-book");
    ("root", YStr "index");
    ("parts", YSeq [
      part "Installation" [
        page "installation" ];
      part "Getting Started" [
        page "getting_started/collocation";
        page "getting_started/defining_odes";
        page "getting_started/optimal_control";
        page "getting_started/intro_to_dymos/intro_ivp";
        page "getting_started/intro_to_dymos/intro_segments" ];
      part "Examples and Tutorials" [
        page_with_sections "examples/examples" [
          page "examples/brachistochrone/brachistochrone";
          page "examples/vanderpol/vanderpol";
          page "examples/balanced_field/balanced_field";
          page "examples/commercial_aircraft/commercial_aircraft";
          page "examples/double_integrator/double_integrator";
          page "examples/hypersensitive/hypersensitive";
          page "examples/finite_burn_orbit_raise/finite_burn_orbit_raise";
          page "examples/length_constrained_brachistochrone/length_constrained_brachistochrone";
          page "examples/min_time_climb/min_time_climb";
          page "examples/multi_phase_cannonball/multi_phase_cannonball";
          page "examples/multibranch_trajectory/multibranch_trajectory";
          page "examples/racecar/racecar";
          page "examples/reentry/reentry";
          page "examples/ssto_earth/ssto_earth";
          page "examples/ssto_moon_linear_tangent/ssto_moon_linear_tangent";
          page "examples/ssto_moon_polynomial_controls/ssto_moon_polynomial_controls";
          page "examples/water_rocket/water_rocket" ] ];
      part "Feature Reference" [
        page_with_sections "features/phases/phases_list" [
          page "features/phases/phases";
          page "features/phases/segments";
          page "features/phases/variables";
          page "features/phases/constraints";
          page "features/phases/objective";
          page "features/phases/timeseries" ];
        page "features/trajectories/trajectories";
        page "features/exploiting_sparsity";
        page "features/plotting" ];
      part "Frequently Asked Questions" [
        page_with_sections "faq/faq" [
          page "faq/add_ode_output_to_timeseries";
          page "faq/connect_scalar_parameters_to_ode";
          page "faq/upstream_analysis";
          page "faq/downstream_analysis";
          page "faq/tandem_phases";
          page "faq/use_partial_coloring";
          page "faq/debugging" ] ];
      part "Dymos API Reference" [
        page_with_sections "api/api" [
          page "api/run_problem";
          page "api/phase_api";
          page "api/trajectory_api" ] ];
      part "Contributing" [
        page "contributing/contributing" ] ])
  ].

Fixpoint yget (key : string) (fields : list (string * yaml)) : option yaml :=
  match fields with
  | [] => None
  | (k, v) :: rest => if String.eqb k key then Some v else yget key rest
  end.

Definition field (key : string) (y : yaml) : option yaml :=
  match y with
  | YMap fields => yget key fields
  | _ => None
  end.

Definition items_of (y : yaml) : list yaml :=
  match y with
  | YSeq items => items
  | _ => []
  end.

Definition parts (t : yaml) : list yaml :=
  default [] (items_of <$> field "parts" t).

Definition caption (p : yaml) : option string :=
  match field "caption" p with
  | Some (YStr s) => Some s
  | _ => None
  end.

Definition chapters (p : yaml) : list yaml :=
  default [] (items_of <$> field "chapters" p).

Definition captions (t : yaml) : list (option string) := caption <$> parts t.

(** An entry is a reference when it is a mapping with a [file] key naming
    a page, whose only other key is [sections], a list of references. *)
Fixpoint is_reference (y : yaml) : bool :=
  match y with
  | YMap fields =>
      (if yget "file" fields is Some (YStr _) then true else false)
      && (fix keys (fs : list (string * yaml)) : bool :=
            match fs with
            | [] => true
            | (k, v) :: fs' =>
                (if String.eqb k "file" then true
                 else if String.eqb k "sections" then
                   match v with
                   | YSeq items =>
                       (fix all (l : list yaml) : bool :=
                          match l with
                          | [] => true
                          | e :: l' => is_reference e && all l'
                          end) items
                   | _ => false
                   end
                 else false)
                && keys fs'
            end) fields
  | _ => false
  end.

(** A part is a mapping with exactly a caption and a list of chapters. *)
Definition is_part (p : yaml) : bool :=
  match p with
  | YMap [("caption", YStr _); ("chapters", YSeq chs)] => forallb is_reference chs
  | _ => false
  end.

(** * Properties of the component *)

Section ArrayFacts.
Context {F : Type} `{Scalar F}.

Lemma broadcast2_same_length (f : F -> F -> F) (a b : list F) :
  length a = length b -> np.broadcast2 f a b = Ok (zip_with f a b).
Proof. intros Hlen. unfold np.broadcast2. by rewrite decide_True. Qed.

Lemma take_length (a r : list F) (idx : list nat) :
  np.take a idx = Ok r -> length r = length idx.
Proof.
  revert r. induction idx as [|i idx IH]; intros r; simpl.
  - by intros [= <-].
  - destruct (a !! i) as [ai|]; [|done].
    destruct (np.take a idx) as [r'|e]; simpl; [|done].
    intros [= <-]. simpl. f_equal. by apply IH.
Qed.

Lemma take_in_range (a : list F) (idx : list nat) :
  Forall (fun i => i < length a) idx -> exists r, np.take a idx = Ok r.
Proof.
  induction 1 as [|i idx Hi _ [r IH]]; simpl; [by eexists|].
  destruct (lookup_lt_is_Some_2 a i Hi) as [ai ->].
  rewrite IH. simpl. by eexists.
Qed.

Lemma take_map (g : F -> F) (a r : list F) (idx : list nat) :
  np.take a idx = Ok r -> np.take (map g a) idx = Ok (map g r).
Proof.
  revert r. induction idx as [|i idx IH]; intros r; simpl.
  - by intros [= <-].
  - rewrite list_lookup_fmap. destruct (a !! i) as [ai|]; [|done]. simpl.
    destruct (np.take a idx) as [r'|e]; simpl; [|done].
    intros [= <-]. by rewrite (IH r').
Qed.

Lemma take_zip_with (f : F -> F -> F) (a b ra rb : list F) (idx : list nat) :
  np.take a idx = Ok ra -> np.take b idx = Ok rb ->
  np.take (zip_with f a b) idx = Ok (zip_with f ra rb).
Proof.
  revert ra rb. induction idx as [|i idx IH]; intros ra rb; simpl.
  - by intros [= <-] [= <-].
  - rewrite lookup_zip_with.
    destruct (a !! i) as [ai|]; [|done].
    destruct (b !! i) as [bi|]; [|done]. simpl.
    destruct (np.take a idx) as [ra'|e]; simpl; [|done].
    destruct (np.take b idx) as [rb'|e]; simpl; [|done].
    intros [= <-] [= <-]. by rewrite (IH ra' rb').
Qed.
End ArrayFacts.

(** [m'] holds, under the same names, the arrays of [m] indexed by [idx]. *)
Definition restricted {F : Type} `{Scalar F} (idx : list nat)
    (m m' : gmap string (list F)) : Prop :=
  forall k : string,
    match m !! k with
    | Some a => exists a', np.take a idx = Ok a' /\ m' !! k = Some a'
    | None => m' !! k = None
    end.

(** Element [i] of the output [name] that [compute] produces on [inputs]. *)
Definition output_at {F : Type} `{Scalar F} (inputs : gmap string (list F))
    (name : string) (i : nat) : option F :=
  match HyperSensitiveODE.compute inputs ∅ with
  | Ok out => out !! name ≫= (fun a => a !! i)
  | Raise _ => None
  end.

Section ODEFacts.
Context {F : Type} `{Scalar F}.
Implicit Types (inputs outputs : gmap string (list F)) (x u : list F).

Definition x_dot_of x u : list F := zip_with sadd (np.neg x) u.
Definition L_of x u : list F :=
  np.div_int (zip_with sadd (np.pow x 2) (np.pow u 2)) 2.

Lemma compute_equal_length inputs outputs x u :
  inputs !! "x" = Some x -> inputs !! "u" = Some u -> length x = length u ->
  HyperSensitiveODE.compute inputs outputs
  = Ok (<["L" := L_of x u]> (<["x_dot" := x_dot_of x u]> outputs)).
Proof.
  intros Hx Hu Hlen. unfold HyperSensitiveODE.compute, getitem, np.add.
  rewrite Hx, Hu. simpl.
  rewrite !broadcast2_same_length; [done| |].
  - unfold np.neg. by rewrite length_map.
  - unfold np.pow. by rewrite !length_map.
Qed.

Lemma x_dot_of_lookup x u i xi ui :
  x !! i = Some xi -> u !! i = Some ui ->
  x_dot_of x u !! i = Some (sadd (sneg xi) ui).
Proof.
  intros Hx Hu. unfold x_dot_of, np.neg.
  by rewrite lookup_zip_with, list_lookup_fmap, Hx, Hu.
Qed.

Lemma L_of_lookup x u i xi ui :
  x !! i = Some xi -> u !! i = Some ui ->
  L_of x u !! i = Some (sdiv (sadd (spow xi 2) (spow ui 2)) (sint 2)).
Proof.
  intros Hx Hu. unfold L_of, np.div_int, np.pow.
  by rewrite list_lookup_fmap, lookup_zip_with, !list_lookup_fmap, Hx, Hu.
Qed.

Lemma x_dot_of_length x u : length x = length u -> length (x_dot_of x u) = length x.
Proof.
  intros Hlen. unfold x_dot_of, np.neg.
  rewrite length_zip_with, length_map. lia.
Qed.

Lemma L_of_length x u : length x = length u -> length (L_of x u) = length x.
Proof.
  intros Hlen. unfold L_of, np.div_int, np.pow.
  rewrite length_map, length_zip_with, !length_map. lia.
Qed.

Lemma output_at_x_dot inputs x u i :
  inputs !! "x" = Some x -> inputs !! "u" = Some u -> length x = length u ->
  output_at inputs "x_dot" i = x_dot_of x u !! i.
Proof.
  intros Hx Hu Hlen. unfold output_at.
  rewrite (compute_equal_length _ _ x u) by done.
  by rewrite lookup_insert_ne, lookup_insert_eq.
Qed.

Lemma output_at_L inputs x u i :
  inputs !! "x" = Some x -> inputs !! "u" = Some u -> length x = length u ->
  output_at inputs "L" i = L_of x u !! i.
Proof.
  intros Hx Hu Hlen. unfold output_at.
  rewrite (compute_equal_length _ _ x u) by done.
  by rewrite lookup_insert_eq.
Qed.

(** C1: for input arrays [x] and [u] of equal length, [compute] returns
    and stores under [x_dot] an array of that length whose element [i] is
    [-x[i] + u[i]], for every node index [i]. *)
Theorem compute_x_dot inputs outputs x u :
  inputs !! "x" = Some x -> inputs !! "u" = Some u -> length x = length u ->
  exists outputs' x_dot,
    HyperSensitiveODE.compute inputs outputs = Ok outputs'
    /\ outputs' !! "x_dot" = Some x_dot
    /\ length x_dot = length x
    /\ forall i xi ui, x !! i = Some xi -> u !! i = Some ui ->
         x_dot !! i = Some (sadd (sneg xi) ui).
Proof.
  intros Hx Hu Hlen. eexists _, (x_dot_of x u).
  split; [by apply compute_equal_length|].
  split; [by rewrite lookup_insert_ne, lookup_insert_eq|].
  split; [by apply x_dot_of_length|].
  intros i xi ui. apply x_dot_of_lookup.
Qed.

(** C2: for input arrays [x] and [u] of equal length, [compute] returns
    and stores under [L] an array of that length whose element [i] is
    [(x[i]**2 + u[i]**2) / 2], for every node index [i]. *)
Theorem compute_L inputs outputs x u :
  inputs !! "x" = Some x -> inputs !! "u" = Some u -> length x = length u ->
  exists outputs' L,
    HyperSensitiveODE.compute inputs outputs = Ok outputs'
    /\ outputs' !! "L" = Some L
    /\ length L = length x
    /\ forall i xi ui, x !! i = Some xi -> u !! i = Some ui ->
         L !! i = Some (sdiv (sadd (spow xi 2) (spow ui 2)) (sint 2)).
Proof.
  intros Hx Hu Hlen. eexists _, (L_of x u).
  split; [by apply compute_equal_length|].
  split; [by rewrite lookup_insert_eq|].
  split; [by apply L_of_length|].
  intros i xi ui. apply L_of_lookup.
Qed.

(** C8: two input assignments that agree on [x] and on [u] give the same
    result of [compute], whatever they hold under [xL]. *)
Theorem compute_ignores_xL inputs1 inputs2 outputs :
  inputs1 !! "x" = inputs2 !! "x" -> inputs1 !! "u" = inputs2 !! "u" ->
  HyperSensitiveODE.compute inputs1 outputs
  = HyperSensitiveODE.compute inputs2 outputs.
Proof.
  intros Hx Hu. unfold HyperSensitiveODE.compute, getitem.
  by rewrite Hx, Hu.
Qed.

Lemma compute_partials_run inputs (jacobian : gmap (string * string) (list F)) x u :
  inputs !! "x" = Some x -> inputs !! "u" = Some u ->
  HyperSensitiveODE.compute_partials inputs jacobian
  = Ok (<[("L", "u") := u]> (<[("L", "x") := x]> jacobian)).
Proof.
  intros Hx Hu. unfold HyperSensitiveODE.compute_partials, getitem.
  by rewrite Hx, Hu.
Qed.

Lemma initial_jacobian_constants (nn : Z) (c : component F) :
  HyperSensitiveODE.setup nn = Ok c ->
  initial_jacobian c !! ("x_dot", "x") = Some (replicate (Z.to_nat nn) (sint (-1)))
  /\ initial_jacobian c !! ("x_dot", "u") = Some (replicate (Z.to_nat nn) (sint 1)).
Proof.
  unfold HyperSensitiveODE.setup, np.zeros.
  destruct (decide (nn < 0)%Z); [done|]. simpl. intros [= <-].
  unfold initial_jacobian. simpl. rewrite !lookup_fmap.
  split; rewrite !lookup_insert_ne by done; rewrite lookup_insert_eq;
    simpl; unfold np.arange; by rewrite length_seq.
Qed.

(** C9: [compute_partials] returns whenever [x] and [u] are among the
    inputs, and the Jacobian it returns differs from the one it was given
    only at [('L','x')] and [('L','u')]; started from the values declared
    in [setup], the constants of [('x_dot','x')] and [('x_dot','u')] are
    still in place afterwards. *)
Theorem compute_partials_frame inputs (jacobian : gmap (string * string) (list F)) x u :
  inputs !! "x" = Some x -> inputs !! "u" = Some u ->
  exists jacobian',
    HyperSensitiveODE.compute_partials inputs jacobian = Ok jacobian'
    /\ (forall key, key <> ("L", "x") -> key <> ("L", "u") ->
          jacobian' !! key = jacobian !! key)
    /\ (forall nn c jac,
          HyperSensitiveODE.setup nn = Ok c ->
          HyperSensitiveODE.compute_partials inputs (initial_jacobian c) = Ok jac ->
          jac !! ("x_dot", "x") = Some (replicate (Z.to_nat nn) (sint (-1)))
          /\ jac !! ("x_dot", "u") = Some (replicate (Z.to_nat nn) (sint 1))).
Proof.
  intros Hx Hu. eexists. split; [by apply compute_partials_run|]. split.
  - intros key Hne1 Hne2. by rewrite !lookup_insert_ne.
  - intros nn c jac Hsetup.
    rewrite (compute_partials_run _ _ x u) by done. intros [= <-].
    rewrite !lookup_insert_ne by done.
    by apply initial_jacobian_constants.
Qed.
End ODEFacts.

Section Decoupling.
Context {F : Type} `{Scalar F}.
Implicit Types (inputs outputs : gmap string (list F)) (x u : list F).

Lemma x_dot_of_local x u x' u' i :
  x !! i = x' !! i -> u !! i = u' !! i ->
  x_dot_of x u !! i = x_dot_of x' u' !! i.
Proof.
  intros Hx Hu. unfold x_dot_of, np.neg.
  by rewrite !lookup_zip_with, !list_lookup_fmap, Hx, Hu.
Qed.

Lemma L_of_local x u x' u' i :
  x !! i = x' !! i -> u !! i = u' !! i ->
  L_of x u !! i = L_of x' u' !! i.
Proof.
  intros Hx Hu. unfold L_of, np.div_int, np.pow.
  by rewrite !list_lookup_fmap, !lookup_zip_with, !list_lookup_fmap, Hx, Hu.
Qed.

Lemma take_x_dot_of x u xr ur idx :
  np.take x idx = Ok xr -> np.take u idx = Ok ur ->
  np.take (x_dot_of x u) idx = Ok (x_dot_of xr ur).
Proof.
  intros Hx Hu. unfold x_dot_of, np.neg.
  apply take_zip_with; [by apply take_map | done].
Qed.

Lemma take_L_of x u xr ur idx :
  np.take x idx = Ok xr -> np.take u idx = Ok ur ->
  np.take (L_of x u) idx = Ok (L_of xr ur).
Proof.
  intros Hx Hu. unfold L_of, np.div_int, np.pow.
  apply take_map, take_zip_with; by apply take_map.
Qed.

Lemma setup_partials (nn : Z) (c : component F) (key : string * string)
    (d : partials_decl F) :
  HyperSensitiveODE.setup nn = Ok c -> comp_partials c !! key = Some d ->
  rows d = np.arange nn /\ cols d = np.arange nn.
Proof.
  unfold HyperSensitiveODE.setup, np.zeros.
  destruct (decide (nn < 0)%Z); [done|]. simpl. intros [= <-]. simpl.
  rewrite !lookup_insert. repeat case_decide; try done; by intros [= <-].
Qed.

(** C10: with input arrays [x] and [u] of equal length, element [i] of
    each output of [compute] is the same for any other equal-length
    inputs that hold the same [x[i]] and [u[i]]; running [compute] on
    all arrays indexed by [idx] gives the outputs indexed by [idx]; and
    every sub-Jacobian declared in [setup] has the diagonal pattern
    [rows = cols = arange(num_nodes)]. *)
Theorem compute_nodewise inputs outputs x u :
  inputs !! "x" = Some x -> inputs !! "u" = Some u -> length x = length u ->
  (forall inputs' x' u' i,
      inputs' !! "x" = Some x' -> inputs' !! "u" = Some u' ->
      length x' = length u' ->
      x !! i = x' !! i -> u !! i = u' !! i ->
      output_at inputs "x_dot" i = output_at inputs' "x_dot" i
      /\ output_at inputs "L" i = output_at inputs' "L" i)
  /\ (forall idx inputs_r outputs_r out,
        restricted idx inputs inputs_r -> restricted idx outputs outputs_r ->
        HyperSensitiveODE.compute inputs outputs = Ok out ->
        exists out_r,
          HyperSensitiveODE.compute inputs_r outputs_r = Ok out_r
          /\ restricted idx out out_r)
  /\ (forall nn (c : component F) key d,
        HyperSensitiveODE.setup nn = Ok c ->
        comp_partials c !! key = Some d ->
        rows d = np.arange nn /\ cols d = np.arange nn).
Proof.
  intros Hx Hu Hlen. split; [|split].
  - intros inputs' x' u' i Hx' Hu' Hlen' Hxi Hui.
    rewrite (output_at_x_dot inputs x u), (output_at_x_dot inputs' x' u') by done.
    rewrite (output_at_L inputs x u), (output_at_L inputs' x' u') by done.
    split; [by apply x_dot_of_local | by apply L_of_local].
  - intros idx inputs_r outputs_r out Hin Hout.
    rewrite (compute_equal_length inputs outputs x u) by done. intros [= <-].
    pose proof (Hin "x") as Hrx. rewrite Hx in Hrx. destruct Hrx as (xr & Htx & Hxr).
    pose proof (Hin "u") as Hru. rewrite Hu in Hru. destruct Hru as (ur & Htu & Hur).
    assert (length xr = length ur) as Hlenr.
    { by rewrite (take_length _ _ _ Htx), (take_length _ _ _ Htu). }
    eexists. split; [by apply compute_equal_length|].
    intros k. rewrite !lookup_insert. repeat case_decide; subst; try done.
    + eexists. split; [by apply take_L_of | done].
    + eexists. split; [by apply take_x_dot_of | done].
    + apply Hout.
  - intros nn c key d. apply setup_partials.
Qed.
End Decoupling.

(** * The partial derivatives, over the reals *)

(** [inputs] with element [j] of the array [wrt] replaced by [t]. *)
Definition perturb (inputs : gmap string (list R)) (wrt : string) (j : nat)
    (t : R) : gmap string (list R) :=
  alter (fun a => <[j := t]> a) wrt inputs.

(** Element [i] of the output [name], as a real function of the inputs. *)
Definition output_R (inputs : gmap string (list R)) (name : string)
    (i : nat) : R :=
  default 0%R (output_at inputs name i).

(** Entry [(i, j)] of the sub-Jacobian [key]: the pattern declared in
    [setup] filled with the values held in [jacobian]. *)
Definition jacobian_entry (c : component R)
    (jacobian : gmap (string * string) (list R)) (key : string * string)
    (i j : nat) : R :=
  match comp_partials c !! key, jacobian !! key with
  | Some d, Some vs => coo_entry (rows d) (cols d) vs i j
  | _, _ => 0%R
  end.

Section Calculus.
Local Open Scope R_scope.

Lemma derivable_pt_lim_eq (f g : R -> R) (a l l' : R) :
  derivable_pt_lim f a l -> (forall t, f t = g t) -> l = l' ->
  derivable_pt_lim g a l'.
Proof.
  intros Hf Hfg <- eps Heps. destruct (Hf eps Heps) as [delta Hd].
  exists delta. intros h Hh Hlt. rewrite <- !Hfg. by apply Hd.
Qed.

Lemma derivable_pt_lim_affine (k c a : R) :
  derivable_pt_lim (fun t => k * t + c) a k.
Proof.
  intros eps Heps. exists (mkposreal eps Heps). intros h Hh _.
  replace ((k * (a + h) + c - (k * a + c)) / h - k) with 0 by (field; done).
  by rewrite Rabs_R0.
Qed.

Lemma derivable_pt_lim_half_square (c a : R) :
  derivable_pt_lim (fun t => (t * t + c) / 2) a a.
Proof.
  intros eps Heps. exists (mkposreal eps Heps). simpl. intros h Hh Hlt.
  replace (((a + h) * (a + h) + c) / 2 - (a * a + c) / 2) with (h * (a + h / 2))
    by field.
  replace (h * (a + h / 2) / h - a) with (h / 2) by (field; done).
  unfold Rdiv. rewrite Rabs_mult, (Rabs_pos_eq (/ 2)) by lra.
  pose proof (Rabs_pos h). lra.
Qed.

Lemma coo_entry_diag_from (n k : nat) (vs : list R) (i j : nat) :
  length vs = n ->
  coo_entry (seq k n) (seq k n) vs i j
  = if decide (i = j /\ (k <= i < k + n)%nat) then nth (i - k) vs 0 else 0.
Proof.
  revert k vs. induction n as [|n IH]; intros k vs Hlen; simpl.
  - rewrite decide_False by lia. done.
  - destruct vs as [|v vs]; [done|]. injection Hlen as Hlen.
    rewrite (IH (S k) vs Hlen).
    destruct (decide (k = i /\ k = j)) as [[-> ->]|Hne].
    + rewrite decide_False by lia. rewrite decide_True by lia.
      rewrite Nat.sub_diag. simpl. lra.
    + destruct (decide (i = j /\ (S k <= i < S k + n)%nat)) as [[-> Hr]|Hout].
      * rewrite decide_True by lia.
        replace (j - k)%nat with (S (j - S k)) by lia. simpl. lra.
      * rewrite decide_False by lia. lra.
Qed.

Lemma coo_entry_diag (n : nat) (vs : list R) (i j : nat) :
  length vs = n -> (i < n)%nat ->
  coo_entry (seq 0 n) (seq 0 n) vs i j
  = if decide (i = j) then nth i vs 0 else 0.
Proof.
  intros Hlen Hi. rewrite coo_entry_diag_from by done. rewrite Nat.sub_0_r.
  destruct (decide (i = j)) as [->|Hne].
  - by rewrite decide_True by lia.
  - by rewrite decide_False by tauto.
Qed.
End Calculus.

Section Jacobian.
Local Open Scope R_scope.
Implicit Types (inputs : gmap string (list R)) (x u : list R).

Lemma output_R_x_dot inputs x u i :
  inputs !! "x" = Some x -> inputs !! "u" = Some u -> length x = length u ->
  (i < length x)%nat ->
  output_R inputs "x_dot" i = - nth i x 0 + nth i u 0.
Proof.
  intros Hx Hu Hlen Hi. unfold output_R.
  rewrite (output_at_x_dot inputs x u) by done.
  destruct (lookup_lt_is_Some_2 x i Hi) as [xi Hxi].
  destruct (lookup_lt_is_Some_2 u i ltac:(lia)) as [ui Hui].
  rewrite (x_dot_of_lookup x u i xi ui), !nth_lookup, Hxi, Hui by done.
  done.
Qed.

Lemma output_R_L inputs x u i :
  inputs !! "x" = Some x -> inputs !! "u" = Some u -> length x = length u ->
  (i < length x)%nat ->
  output_R inputs "L" i = (nth i x 0 * nth i x 0 + nth i u 0 * nth i u 0) / 2.
Proof.
  intros Hx Hu Hlen Hi. unfold output_R.
  rewrite (output_at_L inputs x u) by done.
  destruct (lookup_lt_is_Some_2 x i Hi) as [xi Hxi].
  destruct (lookup_lt_is_Some_2 u i ltac:(lia)) as [ui Hui].
  rewrite (L_of_lookup x u i xi ui), !nth_lookup, Hxi, Hui by done.
  simpl. by rewrite !Rmult_1_r.
Qed.

Lemma nth_insert x (i j : nat) (t : R) :
  (j < length x)%nat ->
  nth i (<[j := t]> x) 0 = if decide (i = j) then t else nth i x 0.
Proof.
  intros Hj. rewrite !nth_lookup. case_decide as Hij.
  - subst. by rewrite list_lookup_insert_eq.
  - by rewrite list_lookup_insert_ne.
Qed.

Lemma perturb_x inputs x u j t :
  inputs !! "x" = Some x -> inputs !! "u" = Some u ->
  perturb inputs "x" j t !! "x" = Some (<[j := t]> x)
  /\ perturb inputs "x" j t !! "u" = Some u.
Proof.
  intros Hx Hu. unfold perturb.
  by rewrite lookup_alter_eq, lookup_alter_ne, Hx, Hu.
Qed.

Lemma perturb_u inputs x u j t :
  inputs !! "x" = Some x -> inputs !! "u" = Some u ->
  perturb inputs "u" j t !! "x" = Some x
  /\ perturb inputs "u" j t !! "u" = Some (<[j := t]> u).
Proof.
  intros Hx Hu. unfold perturb.
  by rewrite lookup_alter_eq, lookup_alter_ne, Hx, Hu.
Qed.

Lemma d_x_dot_d_x inputs x u i j :
  inputs !! "x" = Some x -> inputs !! "u" = Some u -> length x = length u ->
  (i < length x)%nat -> (j < length x)%nat ->
  derivable_pt_lim (fun t => output_R (perturb inputs "x" j t) "x_dot" i)
    (nth j x 0) (if decide (i = j) then -1 else 0).
Proof.
  intros Hx Hu Hlen Hi Hj.
  eapply (derivable_pt_lim_eq
           (fun t => (if decide (i = j) then -1 else 0) * t
                     + ((if decide (i = j) then 0 else - nth i x 0) + nth i u 0)));
    [apply derivable_pt_lim_affine | | done].
  intros t. destruct (perturb_x inputs x u j t Hx Hu) as [Hx' Hu'].
  rewrite (output_R_x_dot _ _ _ i Hx' Hu') by (rewrite ?length_insert; done).
  rewrite nth_insert by done. case_decide; lra.
Qed.

Lemma d_x_dot_d_u inputs x u i j :
  inputs !! "x" = Some x -> inputs !! "u" = Some u -> length x = length u ->
  (i < length x)%nat -> (j < length x)%nat ->
  derivable_pt_lim (fun t => output_R (perturb inputs "u" j t) "x_dot" i)
    (nth j u 0) (if decide (i = j) then 1 else 0).
Proof.
  intros Hx Hu Hlen Hi Hj.
  eapply (derivable_pt_lim_eq
           (fun t => (if decide (i = j) then 1 else 0) * t
                     + (- nth i x 0 + (if decide (i = j) then 0 else nth i u 0))));
    [apply derivable_pt_lim_affine | | done].
  intros t. destruct (perturb_u inputs x u j t Hx Hu) as [Hx' Hu'].
  rewrite (output_R_x_dot _ _ _ i Hx' Hu') by (rewrite ?length_insert; done).
  rewrite nth_insert by lia. case_decide; lra.
Qed.

Lemma d_L_d_x inputs x u i j :
  inputs !! "x" = Some x -> inputs !! "u" = Some u -> length x = length u ->
  (i < length x)%nat -> (j < length x)%nat ->
  derivable_pt_lim (fun t => output_R (perturb inputs "x" j t) "L" i)
    (nth j x 0) (if decide (i = j) then nth i x 0 else 0).
Proof.
  intros Hx Hu Hlen Hi Hj. case_decide as Hij.
  - subst i.
    apply (derivable_pt_lim_eq (fun t => (t * t + nth j u 0 * nth j u 0) / 2)
             _ _ (nth j x 0)); [apply derivable_pt_lim_half_square | | done].
    intros t. destruct (perturb_x inputs x u j t Hx Hu) as [Hx' Hu'].
    rewrite (output_R_L _ _ _ j Hx' Hu') by (rewrite ?length_insert; done).
    rewrite nth_insert by done. by rewrite decide_True.
  - apply (derivable_pt_lim_eq
             (fun t => 0 * t + (nth i x 0 * nth i x 0 + nth i u 0 * nth i u 0) / 2)
             _ _ 0); [apply derivable_pt_lim_affine | | done].
    intros t. destruct (perturb_x inputs x u j t Hx Hu) as [Hx' Hu'].
    rewrite (output_R_L _ _ _ i Hx' Hu') by (rewrite ?length_insert; done).
    rewrite nth_insert by done. rewrite decide_False by done. lra.
Qed.

Lemma d_L_d_u inputs x u i j :
  inputs !! "x" = Some x -> inputs !! "u" = Some u -> length x = length u ->
  (i < length x)%nat -> (j < length x)%nat ->
  derivable_pt_lim (fun t => output_R (perturb inputs "u" j t) "L" i)
    (nth j u 0) (if decide (i = j) then nth i u 0 else 0).
Proof.
  intros Hx Hu Hlen Hi Hj. case_decide as Hij.
  - subst i.
    apply (derivable_pt_lim_eq (fun t => (t * t + nth j x 0 * nth j x 0) / 2)
             _ _ (nth j u 0)); [apply derivable_pt_lim_half_square | | done].
    intros t. destruct (perturb_u inputs x u j t Hx Hu) as [Hx' Hu'].
    rewrite (output_R_L _ _ _ j Hx' Hu') by (rewrite ?length_insert; done).
    rewrite nth_insert by lia. rewrite decide_True by done. lra.
  - apply (derivable_pt_lim_eq
             (fun t => 0 * t + (nth i x 0 * nth i x 0 + nth i u 0 * nth i u 0) / 2)
             _ _ 0); [apply derivable_pt_lim_affine | | done].
    intros t. destruct (perturb_u inputs x u j t Hx Hu) as [Hx' Hu'].
    rewrite (output_R_L _ _ _ i Hx' Hu') by (rewrite ?length_insert; done).
    rewrite nth_insert by lia. rewrite decide_False by done. lra.
Qed.
End Jacobian.

Section JacobianOfSetup.
Local Open Scope R_scope.
Implicit Types (inputs : gmap string (list R)) (x u : list R).

Lemma setup_declares (nn : Z) (c : component R) (key : string * string) :
  HyperSensitiveODE.setup nn = Ok c ->
  key ∈ [("x_dot", "x"); ("x_dot", "u"); ("L", "x"); ("L", "u")] ->
  exists d, comp_partials c !! key = Some d.
Proof.
  unfold HyperSensitiveODE.setup, np.zeros.
  destruct (decide (nn < 0)%Z); [done|]. simpl. intros [= <-] Hkey. simpl.
  rewrite !elem_of_cons, elem_of_nil in Hkey.
  destruct Hkey as [->|[->|[->|[->|[]]]]];
    rewrite ?lookup_insert_ne by done; rewrite lookup_insert_eq; by eexists.
Qed.

Lemma jacobian_entry_diag (nn : Z) (c : component R)
    (jacobian : gmap (string * string) (list R)) key vs (i j : nat) :
  HyperSensitiveODE.setup nn = Ok c ->
  key ∈ [("x_dot", "x"); ("x_dot", "u"); ("L", "x"); ("L", "u")] ->
  jacobian !! key = Some vs -> length vs = Z.to_nat nn ->
  (i < Z.to_nat nn)%nat ->
  jacobian_entry c jacobian key i j = if decide (i = j) then nth i vs 0 else 0.
Proof.
  intros Hsetup Hkey Hvs Hlen Hi. unfold jacobian_entry.
  destruct (setup_declares nn c key Hsetup Hkey) as [d Hd].
  destruct (setup_partials nn c key d Hsetup Hd) as [Hrows Hcols].
  rewrite Hd, Hvs, Hrows, Hcols. unfold np.arange.
  by apply coo_entry_diag.
Qed.

Lemma nth_replicate_lt (n i : nat) (v : R) :
  (i < n)%nat -> nth i (replicate n v) 0 = v.
Proof. intros Hi. by rewrite nth_lookup, lookup_replicate_2. Qed.

(** C3: on [num_nodes] nodes, [compute_partials] run on the Jacobian that
    [setup] declares returns [x] under [('L','x')] and [u] under
    [('L','u')] and leaves the declared constants [-1] and [1] under
    [('x_dot','x')] and [('x_dot','u')]; and for each of the four
    sub-Jacobians, entry [(i, j)] of the matrix it stands for is the
    derivative of element [i] of the output of [compute] with respect to
    element [j] of the input. *)
Theorem partials_are_jacobian (nn : Z) (c : component R) inputs x u :
  HyperSensitiveODE.setup nn = Ok c ->
  inputs !! "x" = Some x -> inputs !! "u" = Some u ->
  length x = Z.to_nat nn -> length u = Z.to_nat nn ->
  exists jacobian,
    HyperSensitiveODE.compute_partials inputs (initial_jacobian c) = Ok jacobian
    /\ jacobian !! ("L", "x") = Some x
    /\ jacobian !! ("L", "u") = Some u
    /\ jacobian !! ("x_dot", "x") = Some (replicate (Z.to_nat nn) (-1))
    /\ jacobian !! ("x_dot", "u") = Some (replicate (Z.to_nat nn) 1)
    /\ forall i j : nat, (i < Z.to_nat nn)%nat -> (j < Z.to_nat nn)%nat ->
         derivable_pt_lim
           (fun t => output_R (perturb inputs "x" j t) "x_dot" i) (nth j x 0)
           (jacobian_entry c jacobian ("x_dot", "x") i j)
         /\ derivable_pt_lim
              (fun t => output_R (perturb inputs "u" j t) "x_dot" i) (nth j u 0)
              (jacobian_entry c jacobian ("x_dot", "u") i j)
         /\ derivable_pt_lim
              (fun t => output_R (perturb inputs "x" j t) "L" i) (nth j x 0)
              (jacobian_entry c jacobian ("L", "x") i j)
         /\ derivable_pt_lim
              (fun t => output_R (perturb inputs "u" j t) "L" i) (nth j u 0)
              (jacobian_entry c jacobian ("L", "u") i j).
Proof.
  intros Hsetup Hx Hu Hlx Hlu.
  destruct (initial_jacobian_constants nn c Hsetup) as [Hcx Hcu].
  set (jacobian := <[("L", "u") := u]> (<[("L", "x") := x]> (initial_jacobian c))).
  assert (jacobian !! ("L", "x") = Some x) as HLx
    by (unfold jacobian; by rewrite lookup_insert_ne, lookup_insert_eq).
  assert (jacobian !! ("L", "u") = Some u) as HLu
    by (unfold jacobian; by rewrite lookup_insert_eq).
  assert (jacobian !! ("x_dot", "x") = Some (replicate (Z.to_nat nn) (-1))) as Hxx
    by (unfold jacobian; by rewrite !lookup_insert_ne).
  assert (jacobian !! ("x_dot", "u") = Some (replicate (Z.to_nat nn) 1)) as Hxu
    by (unfold jacobian; by rewrite !lookup_insert_ne).
  exists jacobian. split; [by apply compute_partials_run|].
  repeat (split; [done|]).
  intros i j Hi Hj.
  rewrite (jacobian_entry_diag nn c jacobian ("x_dot", "x") _ i j Hsetup
             ltac:(set_solver) Hxx) by (by rewrite ?length_replicate).
  rewrite (jacobian_entry_diag nn c jacobian ("x_dot", "u") _ i j Hsetup
             ltac:(set_solver) Hxu) by (by rewrite ?length_replicate).
  rewrite (jacobian_entry_diag nn c jacobian ("L", "x") _ i j Hsetup
             ltac:(set_solver) HLx) by done.
  rewrite (jacobian_entry_diag nn c jacobian ("L", "u") _ i j Hsetup
             ltac:(set_solver) HLu) by done.
  rewrite !nth_replicate_lt by done.
  assert (length x = length u) as Hlen by congruence.
  rewrite <- Hlx in Hi, Hj.
  split; [by apply (d_x_dot_d_x inputs x u)|].
  split; [by apply (d_x_dot_d_u inputs x u)|].
  split; [by apply (d_L_d_x inputs x u) | by apply (d_L_d_u inputs x u)].
Qed.
End JacobianOfSetup.

(** * The analytic solution *)

Section OptimalTrajectory.
Local Open Scope R_scope.

Lemma derivable_pt_lim_exp_lin (a t : R) :
  derivable_pt_lim (fun s => exp (a * s)) t (a * exp (a * t)).
Proof.
  apply (derivable_pt_lim_eq (comp exp (mult_real_fct a Ranalysis1.id)) _ _
           (exp (a * t) * (a * 1))).
  - apply derivable_pt_lim_comp.
    + apply derivable_pt_lim_scal, derivable_pt_lim_id.
    + apply derivable_pt_lim_exp.
  - reflexivity.
  - ring.
Qed.

Lemma x_star_deriv (T t : R) :
  derivable_pt_lim (Analytic.x_star T) t
    (Analytic.c1 T * (sqrt 2 * exp (sqrt 2 * t))
     + Analytic.c2 T * (- sqrt 2 * exp (- sqrt 2 * t))).
Proof.
  unfold Analytic.x_star.
  apply (derivable_pt_lim_plus (fun s => Analytic.c1 T * exp (sqrt 2 * s))
           (fun s => Analytic.c2 T * exp (- sqrt 2 * s))).
  - apply (derivable_pt_lim_scal (fun s => exp (sqrt 2 * s))),
      derivable_pt_lim_exp_lin.
  - apply (derivable_pt_lim_scal (fun s => exp (- sqrt 2 * s))),
      derivable_pt_lim_exp_lin.
Qed.

Lemma x_star_derivable (T : R) : derivable (Analytic.x_star T).
Proof. intros t. eexists. apply x_star_deriv. Qed.
End OptimalTrajectory.

(** The optimal control [u* = dx*/dt + x*] and the integrand of the cost. *)
Definition u_star (T t : R) : R :=
  (derive_pt (Analytic.x_star T) t (x_star_derivable T t)
   + Analytic.x_star T t)%R.

Definition cost_integrand (T t : R) : R :=
  (Analytic.x_star T t ^ 2 + u_star T t ^ 2)%R.

(** An antiderivative of the integrand. *)
Definition cost_primitive (T t : R) : R :=
  (Analytic.c1 T ^ 2 * (1 + sqrt 2) * exp (2 * sqrt 2 * t)
   + Analytic.c2 T ^ 2 * (1 - sqrt 2) * exp (- (2 * sqrt 2) * t))%R.

Section Cost.
Local Open Scope R_scope.

Lemma u_star_closed (T t : R) :
  u_star T t = Analytic.c1 T * (1 + sqrt 2) * exp (sqrt 2 * t)
               + Analytic.c2 T * (1 - sqrt 2) * exp (- sqrt 2 * t).
Proof.
  unfold u_star. rewrite (derive_pt_eq_0 _ _ _ _ (x_star_deriv T t)).
  unfold Analytic.x_star. ring.
Qed.

Lemma sqrt2_sqr : sqrt 2 * sqrt 2 = 2.
Proof. apply sqrt_sqrt. lra. Qed.

Lemma cost_algebra (a b s E E' : R) :
  s * s = 2 ->
  a ^ 2 * (1 + s) * (2 * s * (E * E))
  + b ^ 2 * (1 - s) * (- (2 * s) * (E' * E'))
  = (a * E + b * E') ^ 2 + (a * (1 + s) * E + b * (1 - s) * E') ^ 2.
Proof.
  intros Hs.
  transitivity ((a * E + b * E') ^ 2
                + (a * (1 + s) * E + b * (1 - s) * E') ^ 2
                + (s * s - 2) * (a * E + b * E') ^ 2).
  - ring.
  - rewrite Hs. ring.
Qed.

Lemma cost_primitive_deriv (T t : R) :
  derivable_pt_lim (cost_primitive T) t (cost_integrand T t).
Proof.
  unfold cost_integrand. rewrite u_star_closed. unfold Analytic.x_star.
  apply (derivable_pt_lim_eq
           (plus_fct
              (mult_real_fct (Analytic.c1 T ^ 2 * (1 + sqrt 2))
                 (fun s => exp (2 * sqrt 2 * s)))
              (mult_real_fct (Analytic.c2 T ^ 2 * (1 - sqrt 2))
                 (fun s => exp (- (2 * sqrt 2) * s))))
           _ _
           (Analytic.c1 T ^ 2 * (1 + sqrt 2)
            * (2 * sqrt 2 * exp (2 * sqrt 2 * t))
            + Analytic.c2 T ^ 2 * (1 - sqrt 2)
              * (- (2 * sqrt 2) * exp (- (2 * sqrt 2) * t)))).
  - apply derivable_pt_lim_plus;
      apply derivable_pt_lim_scal, derivable_pt_lim_exp_lin.
  - reflexivity.
  - replace (2 * sqrt 2 * t) with (sqrt 2 * t + sqrt 2 * t) by ring.
    replace (- (2 * sqrt 2) * t) with (- sqrt 2 * t + - sqrt 2 * t) by ring.
    rewrite !exp_plus. apply cost_algebra, sqrt2_sqr.
Qed.

Lemma cost_primitive_derivable (T : R) : derivable (cost_primitive T).
Proof. intros t. eexists. apply cost_primitive_deriv. Qed.

Lemma continuity_pt_eq (f g : R -> R) (a : R) :
  (forall t, f t = g t) -> continuity_pt f a -> continuity_pt g a.
Proof.
  intros Hfg Hc eps Heps. destruct (Hc eps Heps) as [d [Hd1 Hd2]].
  exists d. split; [assumption|]. intros t Ht. rewrite <- !Hfg. by apply Hd2.
Qed.

Lemma cost_integrand_continuous (T : R) : continuity (cost_integrand T).
Proof.
  intros t.
  apply (continuity_pt_eq
           (fun t => (Analytic.c1 T * exp (sqrt 2 * t)
                      + Analytic.c2 T * exp (- sqrt 2 * t)) ^ 2
                     + (Analytic.c1 T * (1 + sqrt 2) * exp (sqrt 2 * t)
                        + Analytic.c2 T * (1 - sqrt 2) * exp (- sqrt 2 * t)) ^ 2)).
  - intros s. unfold cost_integrand. rewrite u_star_closed. reflexivity.
  - reg.
Qed.

Lemma cost_primitive_C1 (T : R) :
  continuity (derive (cost_primitive T) (cost_primitive_derivable T)).
Proof.
  intros t. apply (continuity_pt_eq (cost_integrand T)).
  - intros s. unfold derive. symmetry.
    apply derive_pt_eq_0, cost_primitive_deriv.
  - apply cost_integrand_continuous.
Qed.

Lemma cost_integrable (T a b : R) : Riemann_integrable (cost_integrand T) a b.
Proof.
  destruct (Rle_dec a b) as [Hab | Hab].
  - apply continuity_implies_RiemannInt; [assumption|].
    intros; apply cost_integrand_continuous.
  - apply RiemannInt_P1, continuity_implies_RiemannInt; [lra|].
    intros; apply cost_integrand_continuous.
Qed.
End Cost.

(** The cost functional [J = 1/2 * integral of (x*^2 + u*^2)] over [0, T]. *)
Definition J_star (T : R) : R :=
  (1 / 2 * RiemannInt (cost_integrable T 0 T))%R.

Section Solution.
Local Open Scope R_scope.

Lemma RiemannInt_cost (T : R) :
  0 <= T ->
  RiemannInt (cost_integrable T 0 T) = cost_primitive T T - cost_primitive T 0.
Proof.
  intros HT. pose (G := mkC1 (cost_primitive_C1 T)).
  change (cost_primitive T T - cost_primitive T 0) with (c1 G T - c1 G 0).
  rewrite <- (FTC_Riemann G (RiemannInt_P32 G 0 T)).
  apply RiemannInt_P18; [assumption|].
  intros t _. simpl. unfold derive. symmetry.
  apply derive_pt_eq_0, cost_primitive_deriv.
Qed.

(** C4: the triple returned by [solution] is the optimal control at time
    [0], the optimal control at time [tf], and half the integral over
    [[0, tf]] of [x*^2 + u*^2], for the trajectory [x*] with the
    constants [c1], [c2] and [u* = dx*/dt + x*]. *)
Theorem solution_is_analytic :
  solution = (u_star tf 0, u_star tf tf, J_star tf).
Proof.
  unfold solution, J_star. rewrite RiemannInt_cost by (unfold tf; lra).
  rewrite !u_star_closed. unfold cost_primitive, Analytic.c1, Analytic.c2.
  rewrite !Rmult_0_r, exp_0.
  rewrite (Ropp_mult_distr_l (sqrt 2) tf).
  replace (2 * (sqrt 2 * tf)) with (2 * sqrt 2 * tf) by ring.
  replace (-2 * (sqrt 2 * tf)) with (- (2 * sqrt 2) * tf) by ring.
  f_equal; [f_equal|]; [ring | lra].
Qed.
End Solution.

(** * The closing assertions *)

Section Assertions.
Local Open Scope R_scope.

Lemma py_index_first {A : Type} (a0 : A) (a : list A) :
  py_index (a0 :: a) 0 = Ok a0.
Proof.
  unfold py_index. rewrite (decide_False (P := (0 < 0)%Z)) by lia.
  rewrite decide_True by (simpl; lia). done.
Qed.

Lemma py_index_last {A : Type} (a : list A) (an : A) :
  py_index (a ++ [an]) (-1) = Ok an.
Proof.
  unfold py_index. rewrite (decide_True (P := (-1 < 0)%Z)) by lia.
  rewrite length_app. simpl.
  rewrite decide_True by lia.
  replace (Z.to_nat (-1 + Z.of_nat (length a + 1))) with (length a) by lia.
  by rewrite list_lookup_middle.
Qed.

Lemma py_index_empty {A : Type} (i : Z) : py_index (@nil A) i = Raise IndexError.
Proof.
  unfold py_index. simpl. destruct (decide (i < 0)%Z).
  - by rewrite decide_False by lia.
  - by rewrite decide_False by lia.
Qed.

Lemma assert_near_equal_raises (actual desired tolerance : R) :
  assert_near_equal actual desired tolerance = Raise AssertionFailure
  <-> tolerance < relative_difference actual desired.
Proof.
  unfold assert_near_equal.
  destruct (Rlt_dec tolerance (relative_difference actual desired)); split;
    done.
Qed.

Lemma assert_near_equal_passes (actual desired tolerance : R) :
  assert_near_equal actual desired tolerance = Ok tt
  <-> relative_difference actual desired <= tolerance.
Proof.
  unfold assert_near_equal.
  destruct (Rlt_dec tolerance (relative_difference actual desired)) as [Hlt|Hge].
  - split; [done|]. intros Hle. exfalso. lra.
  - split; [|done]. intros _. lra.
Qed.

(** Closes the four implications between the outcome of the cell and the
    comparisons, once the outcome has been computed. *)
Ltac settle :=
  split; split; intros Hyp; try done; try tauto;
  try (repeat split; lra);
  try (destruct Hyp as (? & ? & ?); exfalso; lra).

(** C6: each assertion returns with no value when the relative difference
    is within the tolerance and raises the assertion failure exactly when
    it exceeds it; the cell of three assertions has no handler, so it
    raises that failure exactly when one of the three differences exceeds
    its tolerance and returns exactly when none does. *)
Theorem assertions_pass_or_raise (p : gmap string (list R)) (u xL : list R)
    (u_first u_last xL_last : R) :
  p !! "traj.phase0.timeseries.controls:u" = Some u ->
  p !! "traj.phase0.timeseries.states:xL" = Some xL ->
  py_index u 0 = Ok u_first -> py_index u (-1) = Ok u_last ->
  py_index xL (-1) = Ok xL_last ->
  (forall actual desired tolerance,
      (assert_near_equal actual desired tolerance = Raise AssertionFailure
       <-> tolerance < relative_difference actual desired)
      /\ (assert_near_equal actual desired tolerance = Ok tt
          <-> relative_difference actual desired <= tolerance))
  /\ (assertions_cell p = Raise AssertionFailure
      <-> 1.5e-2 < relative_difference u_first solution.1.1
          \/ 1.5e-2 < relative_difference u_last solution.1.2
          \/ 1e-2 < relative_difference xL_last solution.2)
  /\ (assertions_cell p = Ok tt
      <-> relative_difference u_first solution.1.1 <= 1.5e-2
          /\ relative_difference u_last solution.1.2 <= 1.5e-2
          /\ relative_difference xL_last solution.2 <= 1e-2).
Proof.
  intros Hu HxL H0 H1 H2. split.
  { intros a d tol. split;
      [apply assert_near_equal_raises | apply assert_near_equal_passes]. }
  unfold assertions_cell, getitem.
  destruct solution as [[ui uf] J]. simpl.
  rewrite Hu, HxL. simpl. rewrite H0. simpl.
  destruct (Rlt_dec 1.5e-2 (relative_difference u_first ui)) as [Ha|Ha].
  { rewrite (proj2 (assert_near_equal_raises _ _ _) Ha). simpl. settle. }
  rewrite (proj2 (assert_near_equal_passes _ _ _)) by lra. simpl.
  rewrite H1. simpl.
  destruct (Rlt_dec 1.5e-2 (relative_difference u_last uf)) as [Hb|Hb].
  { rewrite (proj2 (assert_near_equal_raises _ _ _) Hb). simpl. settle. }
  rewrite (proj2 (assert_near_equal_passes _ _ _)) by lra. simpl.
  rewrite H2. simpl.
  destruct (Rlt_dec 1e-2 (relative_difference xL_last J)) as [Hc|Hc].
  - rewrite (proj2 (assert_near_equal_raises _ _ _) Hc). settle.
  - rewrite (proj2 (assert_near_equal_passes _ _ _)) by lra. settle.
Qed.
End Assertions.

(** * The table of contents *)

Definition listed_captions : list (option string) :=
  [Some "Installation"; Some "Getting Started"; Some "Examples and Tutorials";
   Some "Feature Reference"; Some "FAQ"; Some "API Reference";
   Some "Contributing"]%string.

(** C7, as stated, fails: the fifth and sixth captions of the file are not
    "FAQ" and "API Reference". *)
Lemma toc_captions_differ : captions toc <> listed_captions.
Proof. vm_compute. discriminate. Qed.

(** C7, amended: the table of contents has exactly seven parts, captioned
    Installation, Getting Started, Examples and Tutorials, Feature
    Reference, Frequently Asked Questions, Dymos API Reference and
    Contributing, in that order, and each part is a caption with a list
    of chapters in which every entry, and every entry of its sections, is a
    [file] reference. *)
Theorem toc_parts :
  captions toc
  = [Some "Installation"; Some "Getting Started"; Some "Examples and Tutorials";
     Some "Feature Reference"; Some "Frequently Asked Questions";
     Some "Dymos API Reference"; Some "Contributing"]%string
  /\ forallb is_part (parts toc) = true.
Proof. split; reflexivity. Qed.

(** * The theorems at concrete inputs *)

Definition real_example_inputs : gmap string (list R) :=
  <["x" := [1.5%R; 1%R]]>
  (<["xL" := [0%R; 0%R]]>
  (<["u" := [0.5%R; 3%R]]> ∅)).

Definition example_component : component R :=
  match HyperSensitiveODE.setup 2 with
  | Ok c => c
  | Raise _ => Component ∅ ∅ ∅
  end.

Definition example_problem : gmap string (list R) :=
  <["traj.phase0.timeseries.controls:u" := [1%R; 2%R]]>
  (<["traj.phase0.timeseries.states:xL" := [0%R; 3%R]]> ∅).

Lemma compute_x_dot_witness :
  exists outputs' x_dot,
    HyperSensitiveODE.compute float_example_inputs ∅ = Ok outputs'
    /\ outputs' !! "x_dot" = Some x_dot
    /\ length x_dot = length [1.5%float; 1%float]
    /\ forall i xi ui,
         [1.5%float; 1%float] !! i = Some xi ->
         [0.5%float; 3%float] !! i = Some ui ->
         x_dot !! i = Some (sadd (sneg xi) ui).
Proof.
  apply (compute_x_dot float_example_inputs ∅ [1.5%float; 1%float]
           [0.5%float; 3%float]); reflexivity.
Defined.

Lemma compute_L_witness :
  exists outputs' L,
    HyperSensitiveODE.compute float_example_inputs ∅ = Ok outputs'
    /\ outputs' !! "L" = Some L
    /\ length L = length [1.5%float; 1%float]
    /\ forall i xi ui,
         [1.5%float; 1%float] !! i = Some xi ->
         [0.5%float; 3%float] !! i = Some ui ->
         L !! i = Some (sdiv (sadd (spow xi 2) (spow ui 2)) (sint 2)).
Proof.
  apply (compute_L float_example_inputs ∅ [1.5%float; 1%float]
           [0.5%float; 3%float]); reflexivity.
Defined.

Lemma compute_ignores_xL_witness :
  HyperSensitiveODE.compute float_example_inputs ∅
  = HyperSensitiveODE.compute
      (<["xL" := [7%float; 8%float; 9%float]]> float_example_inputs) ∅.
Proof.
  apply (compute_ignores_xL float_example_inputs
           (<["xL" := [7%float; 8%float; 9%float]]> float_example_inputs) ∅);
    reflexivity.
Defined.

Lemma compute_partials_frame_witness :
  exists jacobian',
    HyperSensitiveODE.compute_partials real_example_inputs
      (initial_jacobian example_component) = Ok jacobian'
    /\ (forall key, key <> ("L", "x") -> key <> ("L", "u") ->
          jacobian' !! key = initial_jacobian example_component !! key)
    /\ (forall nn c jac,
          HyperSensitiveODE.setup nn = Ok c ->
          HyperSensitiveODE.compute_partials real_example_inputs
            (initial_jacobian c) = Ok jac ->
          jac !! ("x_dot", "x") = Some (replicate (Z.to_nat nn) (sint (-1)))
          /\ jac !! ("x_dot", "u") = Some (replicate (Z.to_nat nn) (sint 1))).
Proof.
  apply (compute_partials_frame real_example_inputs
           (initial_jacobian example_component) [1.5%R; 1%R] [0.5%R; 3%R]);
    reflexivity.
Defined.

Lemma partials_are_jacobian_witness :
  exists jacobian,
    HyperSensitiveODE.compute_partials real_example_inputs
      (initial_jacobian example_component) = Ok jacobian
    /\ jacobian !! ("L", "x") = Some [1.5%R; 1%R]
    /\ jacobian !! ("L", "u") = Some [0.5%R; 3%R]
    /\ jacobian !! ("x_dot", "x") = Some (replicate (Z.to_nat 2) (-1)%R)
    /\ jacobian !! ("x_dot", "u") = Some (replicate (Z.to_nat 2) 1%R)
    /\ forall i j : nat, i < Z.to_nat 2 -> j < Z.to_nat 2 ->
         derivable_pt_lim
           (fun t => output_R (perturb real_example_inputs "x" j t) "x_dot" i)
           (nth j [1.5%R; 1%R] 0%R)
           (jacobian_entry example_component jacobian ("x_dot", "x") i j)
         /\ derivable_pt_lim
              (fun t => output_R (perturb real_example_inputs "u" j t) "x_dot" i)
              (nth j [0.5%R; 3%R] 0%R)
              (jacobian_entry example_component jacobian ("x_dot", "u") i j)
         /\ derivable_pt_lim
              (fun t => output_R (perturb real_example_inputs "x" j t) "L" i)
              (nth j [1.5%R; 1%R] 0%R)
              (jacobian_entry example_component jacobian ("L", "x") i j)
         /\ derivable_pt_lim
              (fun t => output_R (perturb real_example_inputs "u" j t) "L" i)
              (nth j [0.5%R; 3%R] 0%R)
              (jacobian_entry example_component jacobian ("L", "u") i j).
Proof.
  apply (partials_are_jacobian 2 example_component real_example_inputs
           [1.5%R; 1%R] [0.5%R; 3%R]); reflexivity.
Defined.

Lemma compute_nodewise_witness :
  (forall inputs' x' u' i,
      inputs' !! "x" = Some x' -> inputs' !! "u" = Some u' ->
      length x' = length u' ->
      [1.5%float; 1%float] !! i = x' !! i ->
      [0.5%float; 3%float] !! i = u' !! i ->
      output_at float_example_inputs "x_dot" i = output_at inputs' "x_dot" i
      /\ output_at float_example_inputs "L" i = output_at inputs' "L" i)
  /\ (forall idx inputs_r outputs_r out,
        restricted idx float_example_inputs inputs_r ->
        restricted idx ∅ outputs_r ->
        HyperSensitiveODE.compute float_example_inputs ∅ = Ok out ->
        exists out_r,
          HyperSensitiveODE.compute inputs_r outputs_r = Ok out_r
          /\ restricted idx out out_r)
  /\ (forall nn (c : component float) key d,
        HyperSensitiveODE.setup nn = Ok c ->
        comp_partials c !! key = Some d ->
        rows d = np.arange nn /\ cols d = np.arange nn).
Proof.
  apply (compute_nodewise float_example_inputs ∅ [1.5%float; 1%float]
           [0.5%float; 3%float]); reflexivity.
Defined.

Lemma assertions_pass_or_raise_witness :
  (forall actual desired tolerance,
      (assert_near_equal actual desired tolerance = Raise AssertionFailure
       <-> (tolerance < relative_difference actual desired)%R)
      /\ (assert_near_equal actual desired tolerance = Ok tt
          <-> (relative_difference actual desired <= tolerance)%R))
  /\ (assertions_cell example_problem = Raise AssertionFailure
      <-> (1.5e-2 < relative_difference 1 solution.1.1)%R
          \/ (1.5e-2 < relative_difference 2 solution.1.2)%R
          \/ (1e-2 < relative_difference 3 solution.2)%R)
  /\ (assertions_cell example_problem = Ok tt
      <-> (relative_difference 1 solution.1.1 <= 1.5e-2)%R
          /\ (relative_difference 2 solution.1.2 <= 1.5e-2)%R
          /\ (relative_difference 3 solution.2 <= 1e-2)%R).
Proof.
  apply (assertions_pass_or_raise example_problem [1%R; 2%R] [0%R; 3%R]
           1%R 2%R 3%R); reflexivity.
Defined.

(** The restriction of the example inputs to the nodes [1; 1; 0], and the
    commuting square of C10 evaluated on it. *)
Example restricted_example :
  restricted [1; 1; 0]%nat float_example_inputs
    (<["x" := [1%float; 1%float; 1.5%float]]>
    (<["xL" := [0%float; 0%float; 0%float]]>
    (<["u" := [3%float; 3%float; 0.5%float]]> ∅))).
Proof.
  intros k. unfold float_example_inputs. rewrite !lookup_insert.
  repeat case_decide; subst; try done; eexists; split; reflexivity.
Qed.

Example compute_restricted_example :
  HyperSensitiveODE.compute
    (<["x" := [1%float; 1%float; 1.5%float]]>
    (<["xL" := [0%float; 0%float; 0%float]]>
    (<["u" := [3%float; 3%float; 0.5%float]]> ∅))) ∅
  = Ok (<["L" := [5%float; 5%float; 1.25%float]]>
       (<["x_dot" := [2%float; 2%float; (-1)%float]]> ∅)).
Proof. vm_compute. reflexivity. Qed.


(** * Outcomes of the component on arbitrary inputs *)

(** The lengths numpy accepts for an elementwise operation of rank one. *)
Definition broadcastable (n m : nat) : Prop := n = m \/ n = 1%nat \/ m = 1%nat.

Section Outcomes.
Context {F : Type} `{Scalar F}.
Implicit Types (inputs outputs : gmap string (list F)) (x u : list F).

Lemma broadcast2_returns_iff (f : F -> F -> F) (a b : list F) :
  (exists r, np.broadcast2 f a b = Ok r) <-> broadcastable (length a) (length b).
Proof.
  unfold np.broadcast2, broadcastable.
  destruct (decide (length a = length b)) as [Heq|Hne].
  - split; [by left | by eexists].
  - destruct a as [|a0 [|a1 a]]; destruct b as [|b0 [|b1 b]]; simpl in *;
      (split; [intros [r Hr]; (done || (by right; left) || (by right; right))
              | intros [?|[?|?]]; (done || by eexists)]).
Qed.

Lemma broadcast2_raises (f : F -> F -> F) (a b : list F) :
  ~ broadcastable (length a) (length b) -> np.broadcast2 f a b = Raise ValueError.
Proof.
  intros Hnb. destruct (np.broadcast2 f a b) as [r|e] eqn:Hr.
  - exfalso. apply Hnb, (broadcast2_returns_iff f). by eexists.
  - unfold np.broadcast2 in Hr. case_decide; [done|].
    destruct a as [|a0 [|a1 a]]; destruct b as [|b0 [|b1 b]]; by simplify_eq.
Qed.

Lemma broadcast2_scalar_r (f : F -> F -> F) (a : list F) (b0 : F) :
  np.broadcast2 f a [b0] = Ok (map (fun ai => f ai b0) a).
Proof.
  unfold np.broadcast2. case_decide as Hlen.
  - destruct a as [|a0 [|a1 a]]; by simplify_eq.
  - destruct a as [|a0 [|a1 a]]; by simplify_eq.
Qed.

Lemma compute_unfold inputs outputs x u :
  inputs !! "x" = Some x -> inputs !! "u" = Some u ->
  HyperSensitiveODE.compute inputs outputs
  = (x_dot ← np.broadcast2 sadd (np.neg x) u;
     s ← np.broadcast2 sadd (np.pow x 2) (np.pow u 2);
     Ok (<["L" := np.div_int s 2]> (<["x_dot" := x_dot]> outputs))).
Proof.
  intros Hx Hu. unfold HyperSensitiveODE.compute, getitem, np.add.
  by rewrite Hx, Hu.
Qed.

(** X1: [compute] returns exactly when both [x] and [u] are among the
    inputs and their lengths are equal or one of them is one. *)
Theorem compute_returns_iff inputs outputs :
  (exists out, HyperSensitiveODE.compute inputs outputs = Ok out)
  <-> exists x u, inputs !! "x" = Some x /\ inputs !! "u" = Some u
                  /\ broadcastable (length x) (length u).
Proof.
  split.
  - intros [out Hout]. unfold HyperSensitiveODE.compute, getitem in Hout.
    destruct (inputs !! "x") as [x|]; [|done].
    destruct (inputs !! "u") as [u|]; [|done]. simpl in Hout.
    exists x, u. split; [done|]. split; [done|].
    destruct (np.add (np.neg x) u) as [xd|] eqn:Hxd; [|done].
    unfold np.add in Hxd.
    assert (broadcastable (length (np.neg x)) (length u)) as Hb
      by (apply (broadcast2_returns_iff sadd); by eexists).
    unfold np.neg in Hb. by rewrite length_map in Hb.
  - intros (x & u & Hx & Hu & Hb).
    rewrite (compute_unfold inputs outputs x u Hx Hu).
    destruct (proj2 (broadcast2_returns_iff sadd (np.neg x) u)) as [xd ->].
    { unfold np.neg. by rewrite length_map. }
    destruct (proj2 (broadcast2_returns_iff sadd (np.pow x 2) (np.pow u 2)))
      as [s ->].
    { unfold np.pow. by rewrite !length_map. }
    simpl. by eexists.
Qed.

(** X2: [compute] raises [KeyError] for [x] when [x] is missing, [KeyError]
    for [u] when only [u] is missing, and [ValueError] when both are there
    with lengths that do not broadcast. *)
Theorem compute_raises inputs outputs :
  (inputs !! "x" = None ->
   HyperSensitiveODE.compute inputs outputs = Raise (KeyError "x"))
  /\ (is_Some (inputs !! "x") -> inputs !! "u" = None ->
      HyperSensitiveODE.compute inputs outputs = Raise (KeyError "u"))
  /\ (forall x u, inputs !! "x" = Some x -> inputs !! "u" = Some u ->
        ~ broadcastable (length x) (length u) ->
        HyperSensitiveODE.compute inputs outputs = Raise ValueError).
Proof.
  split; [|split].
  - intros Hx. unfold HyperSensitiveODE.compute, getitem. by rewrite Hx.
  - intros [x Hx] Hu. unfold HyperSensitiveODE.compute, getitem.
    by rewrite Hx, Hu.
  - intros x u Hx Hu Hnb. rewrite (compute_unfold inputs outputs x u Hx Hu).
    rewrite (broadcast2_raises sadd (np.neg x) u); [done|].
    unfold np.neg. by rewrite length_map.
Qed.

(** X3: when [compute] returns, the outputs it returns hold [x_dot] and
    [L] and are the given outputs under every other name. *)
Theorem compute_outputs_frame inputs outputs out :
  HyperSensitiveODE.compute inputs outputs = Ok out ->
  is_Some (out !! "x_dot") /\ is_Some (out !! "L")
  /\ forall name, name <> "x_dot" -> name <> "L" -> out !! name = outputs !! name.
Proof.
  unfold HyperSensitiveODE.compute. intros Hout.
  destruct (getitem inputs "x") as [x|]; [|done].
  destruct (getitem inputs "u") as [u|]; [|done]. simpl in Hout.
  destruct (np.add (np.neg x) u) as [xd|]; [|done]. simpl in Hout.
  destruct (np.add (np.pow x 2) (np.pow u 2)) as [s|]; [|done].
  simpl in Hout. injection Hout as <-.
  split; [by rewrite lookup_insert_ne, lookup_insert_eq|].
  split; [by rewrite lookup_insert_eq|].
  intros name Hn1 Hn2. by rewrite !lookup_insert_ne.
Qed.

(** X4: running [compute] again on the outputs it returned changes
    nothing, and what it stores under [x_dot] and [L] does not depend on
    the outputs it was given. *)
Theorem compute_rerun inputs outputs out :
  HyperSensitiveODE.compute inputs outputs = Ok out ->
  HyperSensitiveODE.compute inputs out = Ok out
  /\ forall outputs', exists out',
       HyperSensitiveODE.compute inputs outputs' = Ok out'
       /\ out' !! "x_dot" = out !! "x_dot" /\ out' !! "L" = out !! "L".
Proof.
  unfold HyperSensitiveODE.compute. intros Hout.
  destruct (getitem inputs "x") as [x|]; [|done].
  destruct (getitem inputs "u") as [u|]; [|done]. simpl in *.
  destruct (np.add (np.neg x) u) as [xd|]; [|done]. simpl in *.
  destruct (np.add (np.pow x 2) (np.pow u 2)) as [s|]; [|done].
  simpl in *. injection Hout as <-. split.
  - f_equal. apply map_eq. intros k.
    rewrite !lookup_insert. by repeat case_decide.
  - intros outputs'. eexists. split; [done|].
    rewrite !lookup_insert. by repeat case_decide.
Qed.

(** X5: a control array of a single element is stretched over the nodes:
    with [u = [u0]], [x_dot[i] = -x[i] + u0] and
    [L[i] = (x[i]**2 + u0**2) / 2] for every element of [x]. *)
Theorem compute_scalar_control inputs outputs x (u0 : F) :
  inputs !! "x" = Some x -> inputs !! "u" = Some [u0] ->
  HyperSensitiveODE.compute inputs outputs
  = Ok (<["L" := map (fun xi => sdiv (sadd (spow xi 2) (spow u0 2)) (sint 2)) x]>
       (<["x_dot" := map (fun xi => sadd (sneg xi) u0) x]> outputs)).
Proof.
  intros Hx Hu. rewrite (compute_unfold inputs outputs x [u0] Hx Hu).
  unfold np.pow at 2. simpl map at 1. rewrite !broadcast2_scalar_r. simpl.
  unfold np.neg, np.pow, np.div_int. by rewrite !map_map.
Qed.

End Outcomes.

(** * What [setup] declares *)

Section Declarations.
Context {F : Type} `{Scalar F}.

Lemma setup_returns (nn : Z) :
  (0 <= nn)%Z ->
  HyperSensitiveODE.setup (F := F) nn
  = Ok (Component
          (<["u" := VarMeta (replicate (Z.to_nat nn) (sint 0)) "control" None]>
          (<["xL" := VarMeta (replicate (Z.to_nat nn) (sint 0)) "cost_state" None]>
          (<["x" := VarMeta (replicate (Z.to_nat nn) (sint 0)) "state" None]> ∅)))
          (<["L" := VarMeta (replicate (Z.to_nat nn) (sint 0)) "Lagrangian" (Some "1/s")]>
          (<["x_dot" := VarMeta (replicate (Z.to_nat nn) (sint 0)) "state rate" (Some "1/s")]> ∅))
          (<[("L", "u") := PartialsDecl (np.arange nn) (np.arange nn) None]>
          (<[("L", "x") := PartialsDecl (np.arange nn) (np.arange nn) None]>
          (<[("x_dot", "u") := PartialsDecl (np.arange nn) (np.arange nn) (Some (sint 1))]>
          (<[("x_dot", "x") := PartialsDecl (np.arange nn) (np.arange nn) (Some (sint (-1)))]> ∅))))).
Proof.
  intros Hnn. unfold HyperSensitiveODE.setup, np.zeros.
  by rewrite decide_False by lia.
Qed.

Lemma setup_nonneg (nn : Z) (c : component F) :
  HyperSensitiveODE.setup nn = Ok c -> (0 <= nn)%Z.
Proof.
  unfold HyperSensitiveODE.setup, np.zeros.
  destruct (decide (nn < 0)%Z); [done|]. lia.
Qed.

(** X7: [setup] raises [ValueError] for a negative [num_nodes]; otherwise
    it returns a component whose inputs are exactly [x], [xL] and [u],
    whose outputs are exactly [x_dot] and [L], and whose every variable has
    as value [num_nodes] zeros. *)
Theorem setup_variables (nn : Z) :
  ((nn < 0)%Z -> HyperSensitiveODE.setup (F := F) nn = Raise ValueError)
  /\ ((0 <= nn)%Z ->
      exists c : component F,
        HyperSensitiveODE.setup nn = Ok c
        /\ dom (comp_inputs c) = {["x"; "xL"; "u"]}
        /\ dom (comp_outputs c) = {["x_dot"; "L"]}
        /\ forall name meta,
             comp_inputs c !! name = Some meta
             \/ comp_outputs c !! name = Some meta ->
             var_val meta = replicate (Z.to_nat nn) (sint 0)).
Proof.
  split.
  - intros Hneg. unfold HyperSensitiveODE.setup, np.zeros.
    by rewrite decide_True.
  - intros Hnn. eexists. split; [by apply setup_returns|]. simpl.
    split; [rewrite !dom_insert_L, dom_empty_L; set_solver|].
    split; [rewrite !dom_insert_L, dom_empty_L; set_solver|].
    intros name meta. rewrite !lookup_insert, !lookup_empty.
    intros [Hm|Hm]; repeat case_decide; by simplify_eq.
Qed.

(** X8: the sub-Jacobians that [setup] declares are exactly those of a
    declared output with respect to [x] or [u], none with respect to
    [xL]; each has as many rows as columns, [num_nodes] of them, all
    within the [num_nodes] elements of a variable. *)
Theorem setup_partials_wellformed (nn : Z) (c : component F) :
  HyperSensitiveODE.setup nn = Ok c ->
  (forall out wrt : string,
      is_Some (comp_partials c !! (out, wrt))
      <-> out ∈ dom (comp_outputs c) /\ (wrt = "x" \/ wrt = "u"))
  /\ (forall key d, comp_partials c !! key = Some d ->
        key.2 ∈ dom (comp_inputs c) /\ key.2 <> "xL"
        /\ length (rows d) = Z.to_nat nn /\ length (cols d) = Z.to_nat nn
        /\ Forall (fun i => i < Z.to_nat nn) (rows d)
        /\ Forall (fun j => j < Z.to_nat nn) (cols d)).
Proof.
  intros Hsetup. pose proof (setup_nonneg nn c Hsetup) as Hnn.
  rewrite (setup_returns nn Hnn) in Hsetup. injection Hsetup as <-. simpl.
  assert (Forall (fun i => i < Z.to_nat nn) (np.arange nn)) as Hrange.
  { unfold np.arange. apply Forall_forall. intros i Hi.
    apply list_elem_of_In, in_seq in Hi. lia. }
  split.
  - intros out wrt. rewrite !dom_insert_L, dom_empty_L.
    rewrite !lookup_insert, lookup_empty. split.
    + intros Hsome. repeat case_decide; simplify_eq;
        (by destruct Hsome) || (split; [set_solver | tauto]).
    + intros [Hout Hwrt].
      assert (out = "L" \/ out = "x_dot") as Hcases.
      { revert Hout. rewrite !elem_of_union, !elem_of_singleton, elem_of_empty.
        tauto. }
      clear Hout.
      destruct Hcases as [Ho | Ho]; destruct Hwrt as [Hw | Hw]; subst out wrt;
        repeat case_decide; try done; by eexists.
  - intros key d. rewrite !dom_insert_L, dom_empty_L.
    rewrite !lookup_insert, lookup_empty.
    intros Hd. repeat case_decide; simplify_eq; simpl;
      unfold np.arange at 1 2; rewrite !length_seq;
      (split; [set_solver|]); done.
Qed.

(** X9: every state of the class attribute [states] is a declared input
    whose rate source is a declared output, and the target of every
    parameter is a declared input. *)
Theorem states_and_parameters_declared (nn : Z) (c : component F) :
  HyperSensitiveODE.setup nn = Ok c ->
  Forall (fun sr => sr.1 ∈ dom (comp_inputs c) /\ sr.2 ∈ dom (comp_outputs c))
    HyperSensitiveODE.states
  /\ Forall (fun pt => pt.2 ∈ dom (comp_inputs c)) HyperSensitiveODE.parameters.
Proof.
  intros Hsetup. pose proof (setup_nonneg nn c Hsetup) as Hnn.
  rewrite (setup_returns nn Hnn) in Hsetup. injection Hsetup as <-. simpl.
  unfold HyperSensitiveODE.states, HyperSensitiveODE.parameters.
  rewrite !dom_insert_L, !dom_empty_L.
  split; repeat constructor; simpl; set_solver.
Qed.

(** X10: on [num_nodes] nodes, the Jacobian that [compute_partials]
    returns from the declared one has a value array for exactly the
    declared sub-Jacobians, each as long as its declared list of rows. *)
Theorem jacobian_matches_declarations (nn : Z) (c : component F)
    (inputs : gmap string (list F)) (x u : list F)
    (jac : gmap (string * string) (list F)) :
  HyperSensitiveODE.setup nn = Ok c ->
  inputs !! "x" = Some x -> inputs !! "u" = Some u ->
  length x = Z.to_nat nn -> length u = Z.to_nat nn ->
  HyperSensitiveODE.compute_partials inputs (initial_jacobian c) = Ok jac ->
  dom jac = dom (comp_partials c)
  /\ forall key d, comp_partials c !! key = Some d ->
       exists vs, jac !! key = Some vs /\ length vs = length (rows d).
Proof.
  intros Hsetup Hx Hu Hlx Hlu.
  rewrite (compute_partials_run inputs _ x u Hx Hu). intros [= <-].
  pose proof (setup_nonneg nn c Hsetup) as Hnn.
  rewrite (setup_returns nn Hnn) in Hsetup. injection Hsetup as <-.
  unfold initial_jacobian. simpl. split.
  - rewrite !dom_insert_L, dom_fmap_L, !dom_insert_L. set_solver.
  - intros key d. rewrite !lookup_insert, lookup_fmap, !lookup_insert.
    unfold np.arange.
    intros Hd. repeat case_decide; simplify_eq; simpl; eexists;
      (split; [done|]); rewrite ?length_replicate, !length_seq; done.
Qed.
End Declarations.

(** * The running cost and finite differences, over the reals *)

Section RealOutputs.
Local Open Scope R_scope.
Implicit Types (inputs outputs : gmap string (list R)) (x u : list R).

(** X11: over the reals, every element of the output [L] is nonnegative,
    and it is zero exactly where both [x] and [u] are zero. *)
Theorem L_nonnegative inputs outputs x u out (L : list R) :
  inputs !! "x" = Some x -> inputs !! "u" = Some u -> length x = length u ->
  HyperSensitiveODE.compute inputs outputs = Ok out -> out !! "L" = Some L ->
  forall (i : nat) (l : R), L !! i = Some l ->
    0 <= l /\ (l = 0 <-> x !! i = Some 0 /\ u !! i = Some 0).
Proof.
  intros Hx Hu Hlen. rewrite (compute_equal_length inputs outputs x u) by done.
  intros [= <-]. rewrite lookup_insert_eq. intros [= <-] i l Hl.
  assert (i < length x)%nat as Hi.
  { rewrite <- (L_of_length x u Hlen). by eapply lookup_lt_Some. }
  destruct (lookup_lt_is_Some_2 x i Hi) as [xi Hxi].
  destruct (lookup_lt_is_Some_2 u i ltac:(lia)) as [ui Hui].
  rewrite (L_of_lookup x u i xi ui Hxi Hui) in Hl. injection Hl as <-.
  rewrite Hxi, Hui. simpl. split; [nra|]. split.
  - intros Hz. assert (xi = 0) by nra. assert (ui = 0) by nra. by subst.
  - intros [[= ->] [= ->]]. lra.
Qed.

(** X12: with the Jacobian that [compute_partials] returns, the forward
    difference of [compute] with step [h] in element [j] of an input
    equals entry [(i, j)] of the sub-Jacobian for [x_dot], and exceeds it
    by [h / 2] on the diagonal, and by nothing elsewhere, for [L]. *)
Theorem forward_difference_error (nn : Z) (c : component R) inputs x u
    (jacobian : gmap (string * string) (list R)) (i j : nat) (h : R) :
  HyperSensitiveODE.setup nn = Ok c ->
  inputs !! "x" = Some x -> inputs !! "u" = Some u ->
  length x = Z.to_nat nn -> length u = Z.to_nat nn ->
  HyperSensitiveODE.compute_partials inputs (initial_jacobian c) = Ok jacobian ->
  (i < Z.to_nat nn)%nat -> (j < Z.to_nat nn)%nat -> h <> 0 ->
  (output_R (perturb inputs "x" j (nth j x 0 + h)) "x_dot" i
   - output_R inputs "x_dot" i) / h
  = jacobian_entry c jacobian ("x_dot", "x") i j
  /\ (output_R (perturb inputs "u" j (nth j u 0 + h)) "x_dot" i
      - output_R inputs "x_dot" i) / h
     = jacobian_entry c jacobian ("x_dot", "u") i j
  /\ (output_R (perturb inputs "x" j (nth j x 0 + h)) "L" i
      - output_R inputs "L" i) / h
     = jacobian_entry c jacobian ("L", "x") i j
       + (if decide (i = j) then h / 2 else 0)
  /\ (output_R (perturb inputs "u" j (nth j u 0 + h)) "L" i
      - output_R inputs "L" i) / h
     = jacobian_entry c jacobian ("L", "u") i j
       + (if decide (i = j) then h / 2 else 0).
Proof.
  intros Hsetup Hx Hu Hlx Hlu.
  rewrite (compute_partials_run inputs _ x u Hx Hu). intros [= <-] Hi Hj Hh.
  destruct (initial_jacobian_constants nn c Hsetup) as [Hcx Hcu].
  assert (length x = length u) as Hlen by congruence.
  set (jacobian := <[("L", "u") := u]> (<[("L", "x") := x]> (initial_jacobian c))).
  assert (jacobian !! ("L", "x") = Some x) as HLx
    by (unfold jacobian; by rewrite lookup_insert_ne, lookup_insert_eq).
  assert (jacobian !! ("L", "u") = Some u) as HLu
    by (unfold jacobian; by rewrite lookup_insert_eq).
  assert (jacobian !! ("x_dot", "x") = Some (replicate (Z.to_nat nn) (-1))) as Hxx'
    by (unfold jacobian; by rewrite !lookup_insert_ne).
  assert (jacobian !! ("x_dot", "u") = Some (replicate (Z.to_nat nn) 1)) as Hxu'
    by (unfold jacobian; by rewrite !lookup_insert_ne).
  rewrite (jacobian_entry_diag nn c jacobian ("x_dot", "x") _ i j Hsetup
             ltac:(set_solver) Hxx') by (by rewrite ?length_replicate).
  rewrite (jacobian_entry_diag nn c jacobian ("x_dot", "u") _ i j Hsetup
             ltac:(set_solver) Hxu') by (by rewrite ?length_replicate).
  rewrite (jacobian_entry_diag nn c jacobian ("L", "x") _ i j Hsetup
             ltac:(set_solver) HLx) by done.
  rewrite (jacobian_entry_diag nn c jacobian ("L", "u") _ i j Hsetup
             ltac:(set_solver) HLu) by done.
  rewrite !nth_replicate_lt by done.
  destruct (perturb_x inputs x u j (nth j x 0 + h) Hx Hu) as [Hxx Hxu].
  destruct (perturb_u inputs x u j (nth j u 0 + h) Hx Hu) as [Hux Huu].
  rewrite <- Hlx in Hi, Hj.
  rewrite (output_R_x_dot _ _ _ i Hxx Hxu), (output_R_x_dot _ _ _ i Hux Huu),
    (output_R_x_dot _ _ _ i Hx Hu), (output_R_L _ _ _ i Hxx Hxu),
    (output_R_L _ _ _ i Hux Huu), (output_R_L _ _ _ i Hx Hu)
    by (rewrite ?length_insert; done).
  rewrite !nth_insert by lia.
  destruct (decide (i = j)) as [->|Hne]; repeat split; field; done.
Qed.
End RealOutputs.

(** * The analytic trajectory and the component *)




Section Trajectory.
Local Open Scope R_scope.

Lemma exp_difference_nonzero (T : R) :
  T <> 0 -> exp (- sqrt 2 * T) - exp (sqrt 2 * T) <> 0.
Proof.
  intros HT Heq. apply Rminus_diag_uniq, exp_inv in Heq.
  pose proof (sqrt_lt_R0 2 ltac:(lra)) as Hs.
  assert (sqrt 2 * T = 0) as Hz by lra.
  apply Rmult_integral in Hz. destruct Hz; lra.
Qed.

(** X13: for a final time [T <> 0], the analytic state meets the boundary
    conditions of the problem: [x*(0) = 1.5] and [x*(T) = 1]. *)
Theorem x_star_boundary (T : R) :
  T <> 0 -> Analytic.x_star T 0 = 1.5 /\ Analytic.x_star T T = 1.
Proof.
  intros HT. pose proof (exp_difference_nonzero T HT) as Hd.
  unfold Analytic.x_star, Analytic.c1, Analytic.c2.
  rewrite !Rmult_0_r, exp_0.
  assert (exp (sqrt 2 * T) * exp (- sqrt 2 * T) = 1) as HE.
  { rewrite <- exp_plus. replace (sqrt 2 * T + - sqrt 2 * T) with 0 by ring.
    apply exp_0. }
  revert Hd HE.
  generalize (exp (sqrt 2 * T)) (exp (- sqrt 2 * T)). intros E E' Hd HE.
  split.
  - field. done.
  - apply (Rmult_eq_reg_r (E' - E)); [|done].
    transitivity ((1.5 * E' - 1) * E + (1 - 1.5 * E) * E'); [field; done|].
    transitivity (1.5 * (E * E') - E - 1.5 * (E * E') + E'); [ring|].
    rewrite HE. ring.
Qed.






End Trajectory.

(** * The closing assertions without data *)

(** X16: when the solved problem holds no control timeseries the cell
    raises [KeyError] for its name, and when that timeseries is empty the
    cell raises [IndexError]; in neither case does a comparison run or the
    cell return. *)
Theorem assertions_cell_without_data (p : gmap string (list R)) :
  (p !! "traj.phase0.timeseries.controls:u" = None ->
   assertions_cell p = Raise (KeyError "traj.phase0.timeseries.controls:u"))
  /\ (p !! "traj.phase0.timeseries.controls:u" = Some [] ->
      assertions_cell p = Raise IndexError).
Proof.
  unfold assertions_cell, getitem. destruct solution as [[ui uf] J].
  split; intros ->; reflexivity.
Qed.

(** * The further theorems at concrete inputs *)

Definition float_example_outputs : gmap string (list float) :=
  <["L" := [1.25%float; 5%float]]> (<["x_dot" := [(-1)%float; 2%float]]> ∅).

Definition real_example_outputs : gmap string (list R) :=
  <["L" := L_of [1.5%R; 1%R] [0.5%R; 3%R]]>
  (<["x_dot" := x_dot_of [1.5%R; 1%R] [0.5%R; 3%R]]> ∅).

Definition real_example_jacobian : gmap (string * string) (list R) :=
  <[("L", "u") := [0.5%R; 3%R]]>
  (<[("L", "x") := [1.5%R; 1%R]]> (initial_jacobian example_component)).

Lemma compute_outputs_frame_witness :
  is_Some (float_example_outputs !! "x_dot")
  /\ is_Some (float_example_outputs !! "L")
  /\ forall name, name <> "x_dot" -> name <> "L" ->
       float_example_outputs !! name = (∅ : gmap string (list float)) !! name.
Proof.
  apply (compute_outputs_frame float_example_inputs ∅ float_example_outputs).
  vm_compute. reflexivity.
Defined.

Lemma compute_rerun_witness :
  HyperSensitiveODE.compute float_example_inputs float_example_outputs
  = Ok float_example_outputs
  /\ forall outputs', exists out',
       HyperSensitiveODE.compute float_example_inputs outputs' = Ok out'
       /\ out' !! "x_dot" = float_example_outputs !! "x_dot"
       /\ out' !! "L" = float_example_outputs !! "L".
Proof.
  apply (compute_rerun float_example_inputs ∅ float_example_outputs).
  vm_compute. reflexivity.
Defined.

Lemma compute_scalar_control_witness :
  HyperSensitiveODE.compute
    (<["u" := [3%float]]> float_example_inputs) ∅
  = Ok (<["L" := map (fun xi => sdiv (sadd (spow xi 2) (spow 3%float 2)) (sint 2))
                   [1.5%float; 1%float]]>
       (<["x_dot" := map (fun xi => sadd (sneg xi) 3%float) [1.5%float; 1%float]]>
          ∅)).
Proof.
  apply (compute_scalar_control (<["u" := [3%float]]> float_example_inputs) ∅
           [1.5%float; 1%float] 3%float); reflexivity.
Defined.

Lemma setup_partials_wellformed_witness :
  (forall out wrt : string,
      is_Some (comp_partials example_component !! (out, wrt))
      <-> out ∈ dom (comp_outputs example_component) /\ (wrt = "x" \/ wrt = "u"))
  /\ (forall key d, comp_partials example_component !! key = Some d ->
        key.2 ∈ dom (comp_inputs example_component) /\ key.2 <> "xL"
        /\ length (rows d) = Z.to_nat 2 /\ length (cols d) = Z.to_nat 2
        /\ Forall (fun i => i < Z.to_nat 2) (rows d)
        /\ Forall (fun j => j < Z.to_nat 2) (cols d)).
Proof. apply (setup_partials_wellformed 2 example_component). reflexivity. Defined.

Lemma states_and_parameters_declared_witness :
  Forall (fun sr => sr.1 ∈ dom (comp_inputs example_component)
                    /\ sr.2 ∈ dom (comp_outputs example_component))
    HyperSensitiveODE.states
  /\ Forall (fun pt => pt.2 ∈ dom (comp_inputs example_component))
       HyperSensitiveODE.parameters.
Proof.
  apply (states_and_parameters_declared 2 example_component). reflexivity.
Defined.

Lemma jacobian_matches_declarations_witness :
  dom real_example_jacobian = dom (comp_partials example_component)
  /\ forall key d, comp_partials example_component !! key = Some d ->
       exists vs, real_example_jacobian !! key = Some vs
                  /\ length vs = length (rows d).
Proof.
  apply (jacobian_matches_declarations 2 example_component real_example_inputs
           [1.5%R; 1%R] [0.5%R; 3%R] real_example_jacobian); reflexivity.
Defined.

Lemma L_nonnegative_witness :
  (0 <= sdiv (sadd (spow 1.5 2) (spow 0.5 2)) (sint 2))%R
  /\ (sdiv (sadd (spow 1.5%R 2) (spow 0.5%R 2)) (sint 2) = 0%R
      <-> [1.5%R; 1%R] !! 0%nat = Some 0%R /\ [0.5%R; 3%R] !! 0%nat = Some 0%R).
Proof.
  apply (L_nonnegative real_example_inputs ∅ [1.5%R; 1%R] [0.5%R; 3%R]
           real_example_outputs (L_of [1.5%R; 1%R] [0.5%R; 3%R]) eq_refl eq_refl
           eq_refl eq_refl eq_refl 0%nat).
  reflexivity.
Defined.

Lemma forward_difference_error_witness :
  ((output_R (perturb real_example_inputs "x" 1 (nth 1 [1.5; 1] 0 + 1)) "x_dot" 1
    - output_R real_example_inputs "x_dot" 1) / 1
   = jacobian_entry example_component real_example_jacobian ("x_dot", "x") 1 1
   /\ (output_R (perturb real_example_inputs "u" 1 (nth 1 [0.5; 3] 0 + 1)) "x_dot" 1
       - output_R real_example_inputs "x_dot" 1) / 1
      = jacobian_entry example_component real_example_jacobian ("x_dot", "u") 1 1
   /\ (output_R (perturb real_example_inputs "x" 1 (nth 1 [1.5; 1] 0 + 1)) "L" 1
       - output_R real_example_inputs "L" 1) / 1
      = jacobian_entry example_component real_example_jacobian ("L", "x") 1 1
        + (if decide (1%nat = 1%nat) then 1 / 2 else 0)
   /\ (output_R (perturb real_example_inputs "u" 1 (nth 1 [0.5; 3] 0 + 1)) "L" 1
       - output_R real_example_inputs "L" 1) / 1
      = jacobian_entry example_component real_example_jacobian ("L", "u") 1 1
        + (if decide (1%nat = 1%nat) then 1 / 2 else 0))%R.
Proof.
  apply (forward_difference_error 2 example_component real_example_inputs
           [1.5%R; 1%R] [0.5%R; 3%R] real_example_jacobian 1 1 1%R);
    try reflexivity; try (simpl; lia); lra.
Defined.

Lemma x_star_boundary_witness :
  Analytic.x_star tf 0 = 1.5%R /\ Analytic.x_star tf tf = 1%R.
Proof. apply (x_star_boundary tf). unfold tf. lra. Defined.

